(** * Photo Fusion AI: the image-submission workflow

    A shallow embedding of [services/geminiService.ts],
    [components/ImageUploader.tsx] and [App.tsx], and the properties of
    the submission workflow proved over it.

    Asynchronous code is embedded as a tree of operations ([Proc]): the
    synchronous effects a handler performs (React state setters, [alert],
    [console.error], DOM calls) and the two points where it suspends (a
    [FileReader] read, the remote [generateContent] call), each with the
    continuation that runs when the environment answers.  The tree is
    given two readings: [exec], which runs a handler to completion
    against an environment that answers every suspension, and [step],
    the event loop of the page, where suspended handlers wait in the
    world until an event resumes them. *)

From Stdlib Require Import String Ascii List ZArith Bool Lia.
Import ListNotations.
Local Open Scope string_scope.
Local Open Scope list_scope.

(* ================================================================== *)
(** ** JavaScript values and string primitives *)
(* ================================================================== *)

Module Js.

(** The values that can be thrown or used to reject a promise.
    [JsErr] stands for any object for which [instanceof Error] holds,
    with its [name] and [message]; [JsObj] for any other object, with
    the class tag that [String()] prints. *)
Inductive JsValue : Type :=
| JsUndefined
| JsNull
| JsStr (s : string)
| JsErr (name message : string)
| JsObj (tag : string).

(** [v instanceof Error] *)
Definition instanceofError (v : JsValue) : bool :=
  match v with
  | JsErr _ _ => true
  | _ => false
  end.

(** [String(v)]; for an error this is [Error.prototype.toString]. *)
Definition toString (v : JsValue) : string :=
  match v with
  | JsUndefined => "undefined"
  | JsNull => "null"
  | JsStr s => s
  | JsErr name message =>
      if (name =? "")%string then message
      else if (message =? "")%string then name
      else name ++ ": " ++ message
  | JsObj tag => "[object " ++ tag ++ "]"
  end.

(** Truthiness of a string: only the empty string is falsy. *)
Definition truthy (s : string) : bool := negb (s =? "")%string.

(** Truthiness of [string | null]. *)
Definition truthyOpt (s : option string) : bool :=
  match s with
  | Some s => truthy s
  | None => false
  end.

(** A template-literal hole [${x}] for [x : string | undefined]. *)
Definition templ (x : option string) : string :=
  match x with
  | Some s => s
  | None => "undefined"
  end.

(** [s.split(sep)] for a one-character separator. *)
Fixpoint split (sep : ascii) (s : string) : list string :=
  match s with
  | EmptyString => [EmptyString]
  | String c rest =>
      if Ascii.eqb c sep then EmptyString :: split sep rest
      else match split sep rest with
           | [] => [String c EmptyString]
           | piece :: pieces => String c piece :: pieces
           end
  end.

(** [s.startsWith(p)] *)
Definition startsWith (p s : string) : bool := String.prefix p s.

(** [s.trim()], for the blank character only. *)
Fixpoint trimStart (s : string) : string :=
  match s with
  | String " " rest => trimStart rest
  | _ => s
  end.

Fixpoint trimEnd (s : string) : string :=
  match s with
  | EmptyString => EmptyString
  | String c rest =>
      match trimEnd rest with
      | EmptyString => if Ascii.eqb c " " then EmptyString else String c EmptyString
      | rest' => String c rest'
      end
  end.

Definition trim (s : string) : string := trimEnd (trimStart s).

End Js.

(* ================================================================== *)
(** ** Files and the request and response shapes of the remote service *)
(* ================================================================== *)

Module Dom.

(** A [File]: what the handlers inspect before any read. *)
Record File : Type := mkFile {
  name : string;
  size : Z;
  type : string
}.

(** How a [FileReader.readAsDataURL] ends: [load] with the data URL in
    [reader.result], or [error] with [reader.result === null]. *)
Inductive ReadOutcome : Type :=
| Loaded (result : string)
| ReadFailed.

(** [reader.result] once the read has ended. *)
Definition readerResult (o : ReadOutcome) : option string :=
  match o with
  | Loaded result => Some result
  | ReadFailed => None
  end.

End Dom.

Module Genai.

(** [Blob], [Part], [Content], the candidates of a response and the
    parameters of [generateContent], as the code uses them.  Optional
    fields are [option]s: [None] is [undefined]. *)
Record Blob : Type := mkBlob {
  data : option string;
  mimeType : option string
}.

Record Part : Type := mkPart {
  inlineData : option Blob;
  text : option string
}.

Record Content : Type := mkContent {
  parts : option (list Part)
}.

Record Candidate : Type := mkCandidate {
  content : option Content
}.

Record GenerateContentResponse : Type := mkResponse {
  candidates : option (list Candidate)
}.

Inductive Modality : Type :=
| MODALITY_UNSPECIFIED
| TEXT
| IMAGE
| AUDIO.

Record GenerateContentConfig : Type := mkConfig {
  responseModalities : list Modality
}.

Record GenerateContentParameters : Type := mkParameters {
  model : string;
  contents : Content;
  config : GenerateContentConfig
}.

(** How [ai.models.generateContent] ends: a response, or a thrown or
    rejected value. *)
Inductive RemoteOutcome : Type :=
| RemoteOk (response : GenerateContentResponse)
| RemoteFailed (reason : Js.JsValue).

End Genai.

(* ================================================================== *)
(** ** Page state, effects and asynchronous handlers *)
(* ================================================================== *)

Module Page.
Import Js Dom Genai.

(** Modelled from the spec: [types.ts], which declares [ImageFile], is
    not among the sources.  A selected image keeps the original file
    handle and the preview the uploader builds with
    [{ file, preview: reader.result as string }]; [reader.result] is
    [null] when the read ended in an error, hence the [option]. *)
Record ImageFile : Type := mkImageFile {
  file : File;
  preview : option string
}.

(** The six [useState] cells of [App]. *)
Record AppState : Type := mkAppState {
  baseImage : option ImageFile;
  logoImage : option ImageFile;
  prompt : string;
  generatedImage : option string;
  isLoading : bool;
  error : option string
}.

(** Synchronous effects of the handlers. *)
Inductive Effect : Type :=
| SetBaseImage (v : option ImageFile)
| SetLogoImage (v : option ImageFile)
| SetPrompt (v : string)
| SetGeneratedImage (v : option string)
| SetIsLoading (v : bool)
| SetError (v : option string)
| Alert (message : string)
| ConsoleError (label : string) (v : JsValue)
| PreventDefault
| StopPropagation
| InputClick (id : string)
| InputReset (id : string).

(** A handler: its effects in order, and at each suspension the
    continuation that the answer resumes.  [Throw] is a thrown value
    or, for an [async] function, the rejection of its promise. *)
Inductive Proc (A : Type) : Type :=
| Ret (a : A)
| Throw (v : JsValue)
| Do (e : Effect) (k : Proc A)
| ReadAsDataURL (f : File) (k : ReadOutcome -> Proc A)
| GenerateContent (request : GenerateContentParameters)
                  (k : RemoteOutcome -> Proc A).

Arguments Ret {A} a.
Arguments Throw {A} v.
Arguments Do {A} e k.
Arguments ReadAsDataURL {A} f k.
Arguments GenerateContent {A} request k.

(** Sequencing, [await] included. *)
Fixpoint bind {A B : Type} (p : Proc A) (f : A -> Proc B) : Proc B :=
  match p with
  | Ret a => f a
  | Throw v => Throw v
  | Do e k => Do e (bind k f)
  | ReadAsDataURL file k => ReadAsDataURL file (fun o => bind (k o) f)
  | GenerateContent request k => GenerateContent request (fun o => bind (k o) f)
  end.

(** [try { p } catch (e) { h e }] *)
Fixpoint tryCatch {A : Type} (p : Proc A) (h : JsValue -> Proc A) : Proc A :=
  match p with
  | Ret a => Ret a
  | Throw v => h v
  | Do e k => Do e (tryCatch k h)
  | ReadAsDataURL file k => ReadAsDataURL file (fun o => tryCatch (k o) h)
  | GenerateContent request k =>
      GenerateContent request (fun o => tryCatch (k o) h)
  end.

(** [try { p } finally { f }] *)
Fixpoint tryFinally {A : Type} (p : Proc A) (f : Proc unit) : Proc A :=
  match p with
  | Ret a => bind f (fun _ => Ret a)
  | Throw v => bind f (fun _ => Throw v)
  | Do e k => Do e (tryFinally k f)
  | ReadAsDataURL file k => ReadAsDataURL file (fun o => tryFinally (k o) f)
  | GenerateContent request k =>
      GenerateContent request (fun o => tryFinally (k o) f)
  end.

Definition perform (e : Effect) : Proc unit := Do e (Ret tt).

Declare Scope proc_scope.
Delimit Scope proc_scope with proc.
Notation "x <- p ;; q" := (bind p (fun x => q))
  (at level 61, p at next level, right associativity) : proc_scope.
Notation "p ;; q" := (bind p (fun _ => q))
  (at level 61, right associativity) : proc_scope.

(** What the page does that can be seen from outside the React state. *)
Inductive Observation : Type :=
| SawAlert (message : string)
| SawConsoleError (label : string) (v : JsValue)
| SawPreventDefault
| SawStopPropagation
| SawInputClick (id : string)
| SawRead (f : File)
| SawRequest (request : GenerateContentParameters)
| SawUncaught (v : JsValue).

(** Who started a suspended handler: an uploader (by its [id]) or the
    Generate button. *)
Inductive Origin : Type :=
| FromUploader (id : string)
| FromGenerate.

Inductive Suspended : Type :=
| AwaitRead (f : File) (k : ReadOutcome -> Proc unit)
| AwaitRemote (request : GenerateContentParameters)
              (k : RemoteOutcome -> Proc unit).

(** The page: React state, the value of each file input (by [id]),
    the handlers waiting for an answer, and what has been observed. *)
Record World : Type := mkWorld {
  app : AppState;
  inputs : string -> string;
  pending : list (Origin * Suspended);
  trace : list Observation
}.

Definition withApp (f : AppState -> AppState) (w : World) : World :=
  {| app := f (app w); inputs := inputs w;
     pending := pending w; trace := trace w |}.

Definition observe (o : Observation) (w : World) : World :=
  {| app := app w; inputs := inputs w;
     pending := pending w; trace := trace w ++ [o] |}.

Definition setInput (id value : string) (w : World) : World :=
  {| app := app w;
     inputs := fun i => if (i =? id)%string then value else inputs w i;
     pending := pending w; trace := trace w |}.

Definition suspend (s : Origin * Suspended) (w : World) : World :=
  {| app := app w; inputs := inputs w;
     pending := pending w ++ [s]; trace := trace w |}.

Definition apply (e : Effect) (w : World) : World :=
  match e with
  | SetBaseImage v =>
      withApp (fun a => mkAppState v (logoImage a) (prompt a)
                          (generatedImage a) (isLoading a) (error a)) w
  | SetLogoImage v =>
      withApp (fun a => mkAppState (baseImage a) v (prompt a)
                          (generatedImage a) (isLoading a) (error a)) w
  | SetPrompt v =>
      withApp (fun a => mkAppState (baseImage a) (logoImage a) v
                          (generatedImage a) (isLoading a) (error a)) w
  | SetGeneratedImage v =>
      withApp (fun a => mkAppState (baseImage a) (logoImage a) (prompt a)
                          v (isLoading a) (error a)) w
  | SetIsLoading v =>
      withApp (fun a => mkAppState (baseImage a) (logoImage a) (prompt a)
                          (generatedImage a) v (error a)) w
  | SetError v =>
      withApp (fun a => mkAppState (baseImage a) (logoImage a) (prompt a)
                          (generatedImage a) (isLoading a) v) w
  | Alert message => observe (SawAlert message) w
  | ConsoleError label v => observe (SawConsoleError label v) w
  | PreventDefault => observe SawPreventDefault w
  | StopPropagation => observe SawStopPropagation w
  | InputClick id => observe (SawInputClick id) w
  | InputReset id => setInput id "" w
  end.

(** *** Running to completion *)

(** An environment answers every read and every remote call. *)
Record Env : Type := mkEnv {
  readAsDataURL : File -> ReadOutcome;
  generateContent : GenerateContentParameters -> RemoteOutcome
}.

(** A settled promise. *)
Inductive Settled (A : Type) : Type :=
| Resolved (a : A)
| Rejected (v : JsValue).

Arguments Resolved {A} a.
Arguments Rejected {A} v.

Fixpoint exec {A : Type} (env : Env) (p : Proc A) (w : World)
  : Settled A * World :=
  match p with
  | Ret a => (Resolved a, w)
  | Throw v => (Rejected v, w)
  | Do e k => exec env k (apply e w)
  | ReadAsDataURL f k =>
      exec env (k (readAsDataURL env f)) (observe (SawRead f) w)
  | GenerateContent request k =>
      exec env (k (generateContent env request))
           (observe (SawRequest request) w)
  end.

(** *** Running inside the event loop *)

(** A handler runs until it returns or suspends; a suspended handler
    is parked in [pending]. *)
Fixpoint run (o : Origin) (p : Proc unit) (w : World) : World :=
  match p with
  | Ret _ => w
  | Throw v => observe (SawUncaught v) w
  | Do e k => run o k (apply e w)
  | ReadAsDataURL f k =>
      suspend (o, AwaitRead f k) (observe (SawRead f) w)
  | GenerateContent request k =>
      suspend (o, AwaitRemote request k) (observe (SawRequest request) w)
  end.

End Page.

(* ================================================================== *)
(** ** services/geminiService.ts *)
(* ================================================================== *)

Module GeminiService.
Import Js Dom Genai Page.
Local Open Scope proc_scope.

(** The [{ data: string; mimeType: string }] objects of
    [GenerateImageParams].  [data] is what [fileToBase64] computes
    with [result.split(',')[1]], which is [undefined] ([None]) when
    the text read has no comma. *)
Record EncodedImage : Type := mkEncodedImage {
  data : option string;
  mimeType : string
}.

Record GenerateImageParams : Type := mkParams {
  baseImage : EncodedImage;
  logoImage : EncodedImage;
  prompt : string
}.

(** [await ai.models.generateContent(request)] *)
Definition ai_models_generateContent (request : GenerateContentParameters)
  : Proc GenerateContentResponse :=
  GenerateContent request (fun outcome =>
    match outcome with
    | RemoteOk response => Ret response
    | RemoteFailed reason => Throw reason
    end).

(** [response.candidates?.[0]?.content?.parts || []] *)
Definition responseParts (response : GenerateContentResponse) : list Part :=
  match candidates response with
  | Some (first :: _) =>
      match content first with
      | Some c =>
          match parts c with
          | Some ps => ps
          | None => []
          end
      | None => []
      end
  | _ => []
  end.

(** The [for (const part of ...)] loop with its [return], followed by
    the statements [after] the loop. *)
Fixpoint forOfParts (ps : list Part) (after : Proc string) : Proc string :=
  match ps with
  | [] => after
  | part :: rest =>
      match inlineData part with
      | Some inline =>
          let base64ImageBytes := Genai.data inline in
          let mimeType := Genai.mimeType inline in
          Ret ("data:" ++ templ mimeType ++ ";base64,"
               ++ templ base64ImageBytes)%string
      | None => forOfParts rest after
      end
  end.

Definition generateEditedImage (params : GenerateImageParams) : Proc string :=
  tryCatch
    (response <- ai_models_generateContent
       {| model := "gemini-2.5-flash-image";
          contents :=
            {| parts := Some
                 [ {| inlineData :=
                        Some {| Genai.data := data (baseImage params);
                                Genai.mimeType :=
                                  Some (mimeType (baseImage params)) |};
                      text := None |};
                   {| inlineData :=
                        Some {| Genai.data := data (logoImage params);
                                Genai.mimeType :=
                                  Some (mimeType (logoImage params)) |};
                      text := None |};
                   {| inlineData := None;
                      text := Some (prompt params) |} ] |};
          config := {| responseModalities := [IMAGE] |} |} ;;
     forOfParts (responseParts response)
       (Throw (JsErr "Error" "No image was generated in the response.")))
    (fun error =>
       perform (ConsoleError "Error generating image with Gemini:" error) ;;
       match error with
       | JsErr _ message => Throw (JsStr message)
       | _ => Throw (JsStr "An unknown error occurred while generating the image.")
       end).

End GeminiService.

(* ================================================================== *)
(** ** components/ImageUploader.tsx *)
(* ================================================================== *)

Module ImageUploader.
Import Js Dom Page.
Local Open Scope proc_scope.
Local Open Scope Z_scope.

Record ImageUploaderProps : Type := mkProps {
  id : string;
  title : string;
  onImageUpload : option ImageFile -> Proc unit;
  imageFile : option ImageFile
}.

(** [files?.[0]] *)
Definition firstFile (files : option (list File)) : option File :=
  match files with
  | Some (f :: _) => Some f
  | _ => None
  end.

Definition handleFileChange (props : ImageUploaderProps)
    (files : option (list File)) : Proc unit :=
  match firstFile files with
  | Some file =>
      if size file >? 4 * 1024 * 1024 then
        perform (Alert "File size exceeds 4MB. Please choose a smaller file.")
      else
        ReadAsDataURL file (fun ended =>
          onImageUpload props
            (Some {| file := file; preview := readerResult ended |}))
  | None => Ret tt
  end.

Definition handleDrop (props : ImageUploaderProps)
    (files : option (list File)) : Proc unit :=
  perform PreventDefault ;;
  perform StopPropagation ;;
  match firstFile files with
  | Some file =>
      if startsWith "image/" (type file) then
        if size file >? 4 * 1024 * 1024 then
          perform (Alert "File size exceeds 4MB. Please choose a smaller file.")
        else
          ReadAsDataURL file (fun ended =>
            onImageUpload props
              (Some {| file := file; preview := readerResult ended |}))
      else Ret tt
  | None => Ret tt
  end.

Definition handleDragOver : Proc unit :=
  perform PreventDefault ;;
  perform StopPropagation.

Definition handleClick (props : ImageUploaderProps) : Proc unit :=
  perform (InputClick (id props)).

Definition handleRemove (props : ImageUploaderProps) : Proc unit :=
  perform StopPropagation ;;
  onImageUpload props None ;;
  perform (InputReset (id props)).

(** The [accept] attribute of the file input, and the media types it
    lists: comma-separated tokens, blanks around them dropped.  The
    browser's file dialog offers the files of these types. *)
Definition accept : string := "image/png, image/jpeg, image/webp".

Definition acceptedTypes : list string := map trim (split "," accept).

Definition pickerOffers (f : File) : bool :=
  existsb (String.eqb (type f)) acceptedTypes.

End ImageUploader.

(* ================================================================== *)
(** ** App.tsx *)
(* ================================================================== *)

Module App.
Import Js Dom Genai Page ImageUploader.
Local Open Scope proc_scope.

Definition initialState : AppState :=
  {| baseImage := None;
     logoImage := None;
     prompt := "Take the first image of the person. Add the logo from the second image onto their t-shirt. Ensure the person's face and features remain completely unchanged. The logo should look like it's naturally printed on the fabric, following the folds of the shirt.";
     generatedImage := None;
     isLoading := false;
     error := None |}.

(** The promise settles from [reader.onload] or [reader.onerror]; the
    latter rejects with the [ProgressEvent] it receives. *)
Definition fileToBase64 (file : File) : Proc GeminiService.EncodedImage :=
  ReadAsDataURL file (fun ended =>
    match ended with
    | Loaded result =>
        let data := nth_error (split "," result) 1 in
        Ret {| GeminiService.data := data;
               GeminiService.mimeType := type file |}
    | ReadFailed => Throw (JsObj "ProgressEvent")
    end).

(** [err instanceof Error ? err.message : String(err)] *)
Definition caughtMessage (err : JsValue) : string :=
  match err with
  | JsErr _ message => message
  | _ => toString err
  end.

Definition handleGenerate (st : AppState) : Proc unit :=
  match baseImage st, logoImage st, truthy (prompt st) with
  | Some base, Some logo, true =>
      perform (SetIsLoading true) ;;
      perform (SetError None) ;;
      perform (SetGeneratedImage None) ;;
      tryFinally
        (tryCatch
           (baseImageBase64 <- fileToBase64 (file base) ;;
            logoImageBase64 <- fileToBase64 (file logo) ;;
            result <- GeminiService.generateEditedImage
                        {| GeminiService.baseImage := baseImageBase64;
                           GeminiService.logoImage := logoImageBase64;
                           GeminiService.prompt := prompt st |} ;;
            perform (SetGeneratedImage (Some result)))
           (fun err => perform (SetError (Some (caughtMessage err)))))
        (perform (SetIsLoading false))
  | _, _, _ =>
      perform (SetError
                 (Some "Please provide a base image, a logo image, and a prompt."))
  end.

(** The two [<ImageUploader>] elements. *)
Inductive Slot : Type :=
| BaseSlot
| LogoSlot.

Definition uploader (s : Slot) (st : AppState) : ImageUploaderProps :=
  match s with
  | BaseSlot =>
      {| id := "base-image"; title := "1. Base Image";
         onImageUpload := fun image => perform (SetBaseImage image);
         imageFile := baseImage st |}
  | LogoSlot =>
      {| id := "logo-image"; title := "2. Logo/Overlay";
         onImageUpload := fun image => perform (SetLogoImage image);
         imageFile := logoImage st |}
  end.

Definition isNull {A : Type} (x : option A) : bool :=
  match x with
  | Some _ => false
  | None => true
  end.

(** [disabled={isLoading || !baseImage || !logoImage}] on the button
    whose [onClick] is [handleGenerate]. *)
Definition generateDisabled (st : AppState) : bool :=
  isLoading st || isNull (baseImage st) || isNull (logoImage st).

(** *** The event loop of the page *)

Inductive Event : Type :=
| FileChosen (s : Slot) (files : option (list File))
| FilesDropped (s : Slot) (files : option (list File))
| DraggedOver (s : Slot)
| ZoneClicked (s : Slot)
| RemoveClicked (s : Slot)
| PromptTyped (value : string)
| GenerateClicked
| ReadEnded (i : nat) (ended : ReadOutcome)
| RemoteEnded (i : nat) (ended : RemoteOutcome).

Fixpoint removeNth {A : Type} (i : nat) (l : list A) : list A :=
  match i, l with
  | _, [] => []
  | O, _ :: rest => rest
  | S j, x :: rest => x :: removeNth j rest
  end.

Definition unpark (i : nat) (w : World) : World :=
  {| app := app w; inputs := inputs w;
     pending := removeNth i (pending w); trace := trace w |}.

Definition backslash : string := String (Ascii.ascii_of_nat 92) EmptyString.

(** The value the browser gives a file input after a choice. *)
Definition chosenValue (files : option (list File)) : string :=
  match firstFile files with
  | Some f => "C:" ++ backslash ++ "fakepath" ++ backslash ++ name f
  | None => ""
  end.

Definition step (e : Event) (w : World) : World :=
  match e with
  | FileChosen s files =>
      let props := uploader s (app w) in
      run (FromUploader (id props)) (handleFileChange props files)
          (setInput (id props) (chosenValue files) w)
  | FilesDropped s files =>
      let props := uploader s (app w) in
      run (FromUploader (id props)) (handleDrop props files) w
  | DraggedOver s =>
      run (FromUploader (id (uploader s (app w)))) handleDragOver w
  | ZoneClicked s =>
      (* [input.click()] dispatches a click on the input, which is inside
         the zone: it bubbles to the zone's [onClick] and [handleClick]
         runs once more (the browser ignores that second [click()],
         a click being already dispatched on the input) *)
      let props := uploader s (app w) in
      run (FromUploader (id props)) (handleClick props)
        (run (FromUploader (id props)) (handleClick props) w)
  | RemoveClicked s =>
      (* the remove button is rendered only over a selected image *)
      let props := uploader s (app w) in
      match imageFile props with
      | Some _ => run (FromUploader (id props)) (handleRemove props) w
      | None => w
      end
  | PromptTyped value => apply (SetPrompt value) w
  | GenerateClicked =>
      (* a disabled button dispatches no click *)
      if generateDisabled (app w) then w
      else run FromGenerate (handleGenerate (app w)) w
  | ReadEnded i ended =>
      match nth_error (pending w) i with
      | Some (origin, AwaitRead _ k) => run origin (k ended) (unpark i w)
      | _ => w
      end
  | RemoteEnded i ended =>
      match nth_error (pending w) i with
      | Some (origin, AwaitRemote _ k) => run origin (k ended) (unpark i w)
      | _ => w
      end
  end.

Definition steps (es : list Event) (w : World) : World :=
  fold_left (fun w e => step e w) es w.

Definition initial : World :=
  {| app := initialState; inputs := fun _ => "";
     pending := []; trace := [] |}.

Inductive reachable : World -> Prop :=
| reachable_initial : reachable initial
| reachable_step (e : Event) (w : World) :
    reachable w -> reachable (step e w).

(** The submissions in flight: the suspended [handleGenerate] calls,
    and among them those waiting for the remote service. *)
Definition isSubmission (t : Origin * Suspended) : bool :=
  match fst t with
  | FromGenerate => true
  | FromUploader _ => false
  end.

Definition isRemoteCall (t : Origin * Suspended) : bool :=
  match snd t with
  | AwaitRemote _ _ => true
  | AwaitRead _ _ => false
  end.

Definition submissionsInFlight (w : World) : nat :=
  length (filter isSubmission (pending w)).

Definition remoteCallsInFlight (w : World) : nat :=
  length (filter isRemoteCall (pending w)).

(** The remote calls, the reads and the alerts among the observations. *)
Fixpoint requestsOf (tr : list Observation) : list GenerateContentParameters :=
  match tr with
  | [] => []
  | SawRequest r :: rest => r :: requestsOf rest
  | _ :: rest => requestsOf rest
  end.

Fixpoint readsOf (tr : list Observation) : list File :=
  match tr with
  | [] => []
  | SawRead f :: rest => f :: readsOf rest
  | _ :: rest => readsOf rest
  end.

Fixpoint alertsOf (tr : list Observation) : list string :=
  match tr with
  | [] => []
  | SawAlert m :: rest => m :: alertsOf rest
  | _ :: rest => alertsOf rest
  end.

End App.

(* ================================================================== *)
(** ** The vocabulary of the specification *)
(* ================================================================== *)

Module Spec.
Import Js Dom Genai Page.

(** An inline image part and a text part of a request payload. *)
Definition inlinePart (image : GeminiService.EncodedImage) : Part :=
  {| inlineData :=
       Some {| data := GeminiService.data image;
               mimeType := Some (GeminiService.mimeType image) |};
     text := None |}.

Definition textPart (instruction : string) : Part :=
  {| inlineData := None; text := Some instruction |}.

(** The payload of an edit request as the specification words it:
    base image, logo image, then the instruction, for a service asked
    for image content only. *)
Definition editRequest (params : GeminiService.GenerateImageParams)
  : GenerateContentParameters :=
  {| model := "gemini-2.5-flash-image";
     contents :=
       {| parts := Some [ inlinePart (GeminiService.baseImage params);
                          inlinePart (GeminiService.logoImage params);
                          textPart (GeminiService.prompt params) ] |};
     config := {| responseModalities := [IMAGE] |} |}.

(** What [handleGenerate] passes to [generateEditedImage] once both
    reads have ended in [load]. *)
Definition paramsAfterReads (st : AppState) (base logo : ImageFile)
    (baseURL logoURL : string) : GeminiService.GenerateImageParams :=
  {| GeminiService.baseImage :=
       {| GeminiService.data := nth_error (split "," baseURL) 1;
          GeminiService.mimeType := type (file base) |};
     GeminiService.logoImage :=
       {| GeminiService.data := nth_error (split "," logoURL) 1;
          GeminiService.mimeType := type (file logo) |};
     GeminiService.prompt := prompt st |}.

(** [data:<mediaType>;base64,<content>] *)
Definition dataURI (mediaType content : string) : string :=
  "data:" ++ mediaType ++ ";base64," ++ content.

(** The messages of [NoImageReturnedError] and [MissingInputError]. *)
Definition noImageReturned : string :=
  "No image was generated in the response.".

Definition missingInput : string :=
  "Please provide a base image, a logo image, and a prompt.".

Definition unknownError : string :=
  "An unknown error occurred while generating the image.".

Definition oversize : string :=
  "File size exceeds 4MB. Please choose a smaller file.".

(** An intake event rejects its candidate as oversize: the oversize
    alert is raised, nothing is read, no read is left waiting (so no
    preview will be produced), and the React state, the current
    selection included, is as before. *)
Definition rejectedAsOversize (e : App.Event) (w : World) : Prop :=
  let w' := App.step e w in
  App.alertsOf (trace w') = App.alertsOf (trace w) ++ [oversize]
  /\ App.readsOf (trace w') = App.readsOf (trace w)
  /\ pending w' = pending w
  /\ app w' = app w.

(** An intake event ignores its candidate: as above, without any alert. *)
Definition ignoredSilently (e : App.Event) (w : World) : Prop :=
  let w' := App.step e w in
  App.alertsOf (trace w') = App.alertsOf (trace w)
  /\ App.readsOf (trace w') = App.readsOf (trace w)
  /\ pending w' = pending w
  /\ app w' = app w.

(** The allow-list of media types. *)
Definition allowList : list string :=
  ["image/png"; "image/jpeg"; "image/webp"].

(** The specification's [WorkflowState], read off the three cells the
    result area renders from: the loading panel shows when
    [isLoading], the error panel when [error] is truthy, the result
    when [generatedImage] is truthy and not loading, the placeholder
    when none of them is. *)
Inductive WorkflowState : Type :=
| Idle
| Loading
| Succeeded (resultImageDataURI : string)
| Failed (message : string).

Definition shown (cell : option string) : option string :=
  match cell with
  | Some s => if truthy s then Some s else None
  | None => None
  end.

Definition workflowState (st : AppState) : WorkflowState :=
  if isLoading st then Loading
  else match shown (error st) with
       | Some message => Failed message
       | None =>
           match shown (generatedImage st) with
           | Some uri => Succeeded uri
           | None => Idle
           end
       end.

(** A submission is a no-op: the workflow state stays what it was and
    the remote service is not called. *)
Definition submissionIsNoOp (submitted w : World) : Prop :=
  workflowState (app submitted) = workflowState (app w)
  /\ App.requestsOf (trace submitted) = App.requestsOf (trace w).

End Spec.

(* ================================================================== *)
(** ** Invariants of the event loop *)
(* ================================================================== *)

Module Invariant.
Import Js Dom Genai Page ImageUploader App.

(** The image an uploader shows, and the setter behind its
    [onImageUpload]. *)
Definition selected (s : Slot) (st : AppState) : option ImageFile :=
  imageFile (uploader s st).

Definition slotSetter (s : Slot) (image : option ImageFile) : Effect :=
  match s with
  | BaseSlot => SetBaseImage image
  | LogoSlot => SetLogoImage image
  end.

Definition slotId (s : Slot) : string := id (uploader s initialState).

Definition otherSlot (s : Slot) : Slot :=
  match s with
  | BaseSlot => LogoSlot
  | LogoSlot => BaseSlot
  end.

(** A handler that never calls [setIsLoading]. *)
Fixpoint keepsLoadingFlag {A : Type} (p : Proc A) : Prop :=
  match p with
  | Ret _ => True
  | Throw _ => True
  | Do (SetIsLoading _) _ => False
  | Do _ k => keepsLoadingFlag k
  | ReadAsDataURL _ k => forall ended, keepsLoadingFlag (k ended)
  | GenerateContent _ k => forall ended, keepsLoadingFlag (k ended)
  end.

(** [settles p flag]: run with [isLoading = flag], the handler [p]
    suspends only while [isLoading] is true and leaves it false when
    it ends. *)
Fixpoint settles (p : Proc unit) (flag : bool) : Prop :=
  match p with
  | Ret _ => flag = false
  | Throw _ => flag = false
  | Do (SetIsLoading v) k => settles k v
  | Do _ k => settles k flag
  | ReadAsDataURL _ k => flag = true /\ forall ended, settles (k ended) true
  | GenerateContent _ k => flag = true /\ forall ended, settles (k ended) true
  end.

(** What a parked handler is, by its origin: an uploader's read whose
    continuation stores the selection, or a submission that settles. *)
Definition parkedOk (t : Origin * Suspended) : Prop :=
  match t with
  | (FromUploader i, AwaitRead f k) =>
      exists s : Slot,
        i = slotId s /\
        forall ended,
          k ended =
          perform (slotSetter s (Some (mkImageFile f (readerResult ended))))
  | (FromUploader _, AwaitRemote _ _) => False
  | (FromGenerate, AwaitRead _ k) => forall ended, settles (k ended) true
  | (FromGenerate, AwaitRemote _ k) => forall ended, settles (k ended) true
  end.

(** The loading flag counts the submissions in flight. *)
Definition invariant (w : World) : Prop :=
  Forall parkedOk (pending w) /\
  submissionsInFlight w = if isLoading (app w) then 1 else 0.

(** The events that select, re-select or remove an image: the uploader
    events, and the end of a read an uploader started. *)
Definition imageEvent (e : Event) (w : World) : bool :=
  match e with
  | FileChosen _ _ => true
  | FilesDropped _ _ => true
  | RemoveClicked _ => true
  | ReadEnded i _ =>
      match nth_error (pending w) i with
      | Some (FromUploader _, _) => true
      | _ => false
      end
  | _ => false
  end.

(** The slot an image event can change. *)
Definition eventSlot (e : Event) (w : World) : option Slot :=
  match e with
  | FileChosen s _ => Some s
  | FilesDropped s _ => Some s
  | RemoveClicked s => Some s
  | ReadEnded i _ =>
      match nth_error (pending w) i with
      | Some (FromUploader i', _) =>
          if (i' =? slotId BaseSlot)%string then Some BaseSlot
          else if (i' =? slotId LogoSlot)%string then Some LogoSlot
          else None
      | _ => None
      end
  | _ => None
  end.

(** The events by which an environment answers, one after the other,
    every suspension of a handler parked at position [n]. *)
Fixpoint answers (env : Env) (p : Proc unit) (n : nat) : list Event :=
  match p with
  | Ret _ => []
  | Throw _ => []
  | Do _ k => answers env k n
  | ReadAsDataURL f k =>
      ReadEnded n (readAsDataURL env f)
        :: answers env (k (readAsDataURL env f)) n
  | GenerateContent request k =>
      RemoteEnded n (generateContent env request)
        :: answers env (k (generateContent env request)) n
  end.

End Invariant.

(* ================================================================== *)
(** ** Sample files, selections, responses and environments *)
(* ================================================================== *)

Module Examples.
Import Js Dom Genai Page App Spec.
Local Open Scope string_scope.

Definition person : File := mkFile "person.png" 2097152 "image/png".
Definition logo : File := mkFile "logo.jpg" 1048576 "image/jpeg".
Definition bigPhoto : File := mkFile "big.png" 5000000 "image/png".
Definition bigScan : File := mkFile "scan.pdf" 5000000 "application/pdf".
Definition animation : File := mkFile "anim.gif" 1000 "image/gif".

Definition personImage : ImageFile :=
  mkImageFile person (Some "data:image/png;base64,UEVSU09O").
Definition logoImage : ImageFile :=
  mkImageFile logo (Some "data:image/jpeg;base64,TE9HTw==").

Definition params : GeminiService.GenerateImageParams :=
  {| GeminiService.baseImage := GeminiService.mkEncodedImage (Some "UEVSU09O") "image/png";
     GeminiService.logoImage := GeminiService.mkEncodedImage (Some "TE9HTw==") "image/jpeg";
     GeminiService.prompt := "put the logo on the shirt" |}.

Definition respond (ps : list Part) : GenerateContentResponse :=
  {| candidates := Some [ {| content := Some {| parts := Some ps |} |} ] |}.

Definition caption : Part := textPart "Here is your image.".
Definition firstPicture : Part :=
  {| inlineData := Some (mkBlob (Some "Rk9P") (Some "image/png")); text := None |}.
Definition secondPicture : Part :=
  {| inlineData := Some (mkBlob (Some "QkFS") (Some "image/webp")); text := None |}.

Definition twoPictures : GenerateContentResponse :=
  respond [caption; firstPicture; secondPicture].
Definition noPicture : GenerateContentResponse := respond [caption].

(** Every read loads; the service always answers [o]. *)
Definition answering (o : RemoteOutcome) : Env :=
  {| readAsDataURL := fun f => Loaded ("data:" ++ type f ++ ";base64,AAAA");
     generateContent := fun _ => o |}.

(** The page with both images selected, nothing submitted yet. *)
Definition ready : World :=
  {| app := mkAppState (Some personImage) (Some logoImage)
              "put the logo on the shirt" None false None;
     inputs := fun _ => "";
     pending := [];
     trace := [] |}.

(** The same page with the instruction erased. *)
Definition withoutInstruction : World :=
  {| app := mkAppState (Some personImage) (Some logoImage) "" None false None;
     inputs := fun _ => "";
     pending := [];
     trace := [] |}.

(** Both images dropped and read, then the Generate button clicked:
    the page is loading, with the submission waiting for its first
    read. *)
Definition submitted : World :=
  steps [ FilesDropped BaseSlot (Some [person]);
          ReadEnded 0 (Loaded "data:image/png;base64,UEVSU09O");
          FilesDropped LogoSlot (Some [logo]);
          ReadEnded 0 (Loaded "data:image/jpeg;base64,TE9HTw==");
          GenerateClicked ]
        initial.

End Examples.

(* ================================================================== *)
(** ** The result area and the cells it renders from *)
(* ================================================================== *)

Module Render.
Import Js Page.

(** The four blocks of the result area of [App], each under its own
    condition: [isLoading && ...], [error && ...],
    [generatedImage && !isLoading && ...] and
    [!generatedImage && !isLoading && !error && ...]. *)
Definition showsLoading (st : AppState) : bool := isLoading st.

Definition showsError (st : AppState) : bool := truthyOpt (error st).

Definition showsResult (st : AppState) : bool :=
  truthyOpt (generatedImage st) && negb (isLoading st).

Definition showsPlaceholder (st : AppState) : bool :=
  negb (truthyOpt (generatedImage st)) && negb (isLoading st)
  && negb (truthyOpt (error st)).

End Render.

(* ================================================================== *)
(** ** Further invariants of the event loop *)
(* ================================================================== *)

Module Hygiene.
Import Js Dom Genai Page ImageUploader App Invariant.

(** [c] occurs in [s]. *)
Fixpoint occurs (c : ascii) (s : string) : bool :=
  match s with
  | EmptyString => false
  | String c' rest => Ascii.eqb c' c || occurs c rest
  end.

Definition isSome {A : Type} (x : option A) : bool := negb (isNull x).

(** A handler that calls none of [setIsLoading], [setError] and
    [setGeneratedImage]. *)
Fixpoint keepsResultCells {A : Type} (p : Proc A) : Prop :=
  match p with
  | Ret _ => True
  | Throw _ => True
  | Do (SetIsLoading _) _ => False
  | Do (SetError _) _ => False
  | Do (SetGeneratedImage _) _ => False
  | Do _ k => keepsResultCells k
  | ReadAsDataURL _ k => forall ended, keepsResultCells (k ended)
  | GenerateContent _ k => forall ended, keepsResultCells (k ended)
  end.

(** [settlesClean p flag err res]: run from a state where [isLoading]
    is [flag], [error] is non-null iff [err] and [generatedImage] is
    non-null iff [res], the handler [p] suspends only with the flag up
    and both cells null, and leaves the flag down when it ends. *)
Fixpoint settlesClean (p : Proc unit) (flag err res : bool) : Prop :=
  match p with
  | Ret _ => flag = false
  | Throw _ => flag = false
  | Do (SetIsLoading v) k => settlesClean k v err res
  | Do (SetError v) k => settlesClean k flag (isSome v) res
  | Do (SetGeneratedImage v) k => settlesClean k flag err (isSome v)
  | Do _ k => settlesClean k flag err res
  | ReadAsDataURL _ k =>
      (flag = true /\ err = false /\ res = false)
      /\ forall ended, settlesClean (k ended) true false false
  | GenerateContent _ k =>
      (flag = true /\ err = false /\ res = false)
      /\ forall ended, settlesClean (k ended) true false false
  end.

Definition parkedClean (t : Origin * Suspended) : Prop :=
  match t with
  | (FromUploader _, _) => parkedOk t
  | (FromGenerate, AwaitRead _ k) =>
      forall ended, settlesClean (k ended) true false false
  | (FromGenerate, AwaitRemote _ k) =>
      forall ended, settlesClean (k ended) true false false
  end.

(** While the page is loading it holds neither an error nor a result. *)
Definition tidy (w : World) : Prop :=
  Forall parkedClean (pending w)
  /\ (isLoading (app w) = true ->
      error (app w) = None /\ generatedImage (app w) = None).

(** The events that edit the form without parking or resuming a
    handler. *)
Definition editing (e : Event) : bool :=
  match e with
  | PromptTyped _ => true
  | RemoveClicked _ => true
  | DraggedOver _ => true
  | ZoneClicked _ => true
  | _ => false
  end.

(** The [console.error] calls among the observations. *)
Fixpoint consoleErrorsOf (tr : list Observation) : list (string * JsValue) :=
  match tr with
  | [] => []
  | SawConsoleError label v :: rest => (label, v) :: consoleErrorsOf rest
  | _ :: rest => consoleErrorsOf rest
  end.

End Hygiene.

(* ================================================================== *)
(** ** More sample inputs *)
(* ================================================================== *)

Module Samples.
Import Js Dom Genai Page App Spec Examples.
Local Open Scope string_scope.

Definition notes : File := mkFile "notes.txt" 12 "text/plain".

(** A response whose only picture is in its second candidate. *)
Definition pictureInSecondCandidate : GenerateContentResponse :=
  {| candidates :=
       Some [ {| content := Some {| parts := Some [caption] |} |};
              {| content := Some {| parts := Some [firstPicture] |} |} ] |}.

(** No file can be read. *)
Definition unreadable : Env :=
  {| readAsDataURL := fun _ => ReadFailed;
     generateContent := fun _ => RemoteOk twoPictures |}.

(** Only the logo cannot be read. *)
Definition logoUnreadable : Env :=
  {| readAsDataURL := fun f =>
       if (name f =? "logo.jpg")%string then ReadFailed
       else Loaded ("data:" ++ type f ++ ";base64,AAAA");
     generateContent := fun _ => RemoteOk twoPictures |}.

(** A page that shows a result, its instruction erased since. *)
Definition resultShown : World :=
  {| app := mkAppState (Some personImage) (Some logoImage) ""
              (Some "data:image/png;base64,Rk9P") false None;
     inputs := fun _ => "";
     pending := [];
     trace := [] |}.

End Samples.

(* ================================================================== *)
(** * Properties *)
(* ================================================================== *)

Import Js Dom Genai Page ImageUploader App Spec Invariant Render Hygiene.
Local Open Scope proc_scope.

(** ** Running composed handlers *)

Section RunningToCompletion.

Variable env : Env.

Lemma exec_bind {A B : Type} (p : Proc A) (f : A -> Proc B) (w : World) :
  exec env (bind p f) w =
  match exec env p w with
  | (Resolved a, w') => exec env (f a) w'
  | (Rejected v, w') => (Rejected v, w')
  end.
Proof.
  revert w.
  induction p as [a | v | e k IH | file k IH | request k IH];
    intro w; simpl; auto.
Qed.

Lemma exec_tryCatch {A : Type} (p : Proc A) (h : JsValue -> Proc A) (w : World) :
  exec env (tryCatch p h) w =
  match exec env p w with
  | (Resolved a, w') => (Resolved a, w')
  | (Rejected v, w') => exec env (h v) w'
  end.
Proof.
  revert w.
  induction p as [a | v | e k IH | file k IH | request k IH];
    intro w; simpl; auto.
Qed.

Lemma exec_tryFinally {A : Type} (p : Proc A) (f : Proc unit) (w : World) :
  exec env (tryFinally p f) w =
  match exec env p w with
  | (outcome, w') =>
      match exec env f w' with
      | (Resolved _, w'') => (outcome, w'')
      | (Rejected v, w'') => (Rejected v, w'')
      end
  end.
Proof.
  revert w.
  induction p as [a | v | e k IH | file k IH | request k IH];
    intro w; simpl; auto.
  - rewrite exec_bind. destruct (exec env f w) as [[[] | v] w']; reflexivity.
  - rewrite exec_bind. destruct (exec env f w) as [[[] | v'] w']; reflexivity.
Qed.

(** The scan of the response parts stops at the first inline part. *)
Lemma forOfParts_first (before rest : list Part) (part : Part) (inline : Blob)
    (after : Proc string) :
  Forall (fun p => inlineData p = None) before ->
  inlineData part = Some inline ->
  GeminiService.forOfParts (before ++ part :: rest) after =
  Ret ("data:" ++ templ (mimeType inline) ++ ";base64," ++ templ (data inline))%string.
Proof.
  intros Hbefore Hpart.
  induction Hbefore as [| p before Hp _ IH]; simpl.
  - rewrite Hpart. reflexivity.
  - rewrite Hp. exact IH.
Qed.

Lemma forOfParts_none (ps : list Part) (after : Proc string) :
  Forall (fun p => inlineData p = None) ps ->
  GeminiService.forOfParts ps after = after.
Proof.
  induction 1 as [| p ps Hp _ IH]; simpl; [reflexivity |].
  rewrite Hp. exact IH.
Qed.

(** Either some part is the first inline one, or none is. *)
Lemma parts_scan (ps : list Part) :
  Forall (fun p => inlineData p = None) ps \/
  exists before part rest inline,
    ps = before ++ part :: rest /\
    Forall (fun p => inlineData p = None) before /\
    inlineData part = Some inline.
Proof.
  induction ps as [| p ps IH].
  - left. constructor.
  - destruct (inlineData p) as [inline |] eqn:Hp.
    + right. exists [], p, ps, inline. simpl. auto.
    + destruct IH as [Hnone | (before & part & rest & inline & -> & Hb & Hi)].
      * left. constructor; assumption.
      * right. exists (p :: before), part, rest, inline. simpl. auto.
Qed.

(** One run of [generateEditedImage]: the request it sends, and how the
    answer settles the promise. *)
Lemma generateEditedImage_exec (params : GeminiService.GenerateImageParams)
    (w : World) :
  exec env (GeminiService.generateEditedImage params) w =
  let sent := observe (SawRequest (editRequest params)) w in
  let failed (thrown : JsValue) (reason : string) :=
    (Rejected (JsStr reason),
     observe (SawConsoleError "Error generating image with Gemini:" thrown) sent) in
  match generateContent env (editRequest params) with
  | RemoteOk response =>
      match exec env (GeminiService.forOfParts
                        (GeminiService.responseParts response)
                        (Throw (JsErr "Error" noImageReturned))) sent with
      | (Resolved uri, w') => (Resolved uri, w')
      | (Rejected _, _) => failed (JsErr "Error" noImageReturned) noImageReturned
      end
  | RemoteFailed (JsErr name message) => failed (JsErr name message) message
  | RemoteFailed thrown => failed thrown unknownError
  end.
Proof.
  unfold GeminiService.generateEditedImage.
  rewrite exec_tryCatch, exec_bind. simpl.
  change (mkParameters _ _ _) with (editRequest params).
  unfold noImageReturned, unknownError.
  destruct (generateContent env (editRequest params)) as [response | thrown]; simpl.
  - destruct (parts_scan (GeminiService.responseParts response))
      as [Hnone | (before & part & rest & inline & Hsplit & Hb & Hi)].
    + rewrite (forOfParts_none _ _ Hnone). reflexivity.
    + rewrite Hsplit, (forOfParts_first _ _ _ _ _ Hb Hi). reflexivity.
  - destruct thrown; reflexivity.
Qed.

End RunningToCompletion.

Lemma exec_outcome_any_world {A : Type} (env : Env) (p : Proc A) (w1 w2 : World) :
  fst (exec env p w1) = fst (exec env p w2).
Proof.
  revert w1 w2.
  induction p as [a | v | e k IH | file k IH | request k IH];
    intros w1 w2; simpl; auto.
Qed.

Lemma nth_error_last {A : Type} (l : list A) (x : A) :
  nth_error (l ++ [x]) (length l) = Some x.
Proof.
  induction l as [| y l IH]; simpl; auto.
Qed.

Lemma removeNth_last {A : Type} (l : list A) (x : A) :
  removeNth (length l) (l ++ [x]) = l.
Proof.
  induction l as [| y l IH]; simpl; [reflexivity |].
  rewrite IH. reflexivity.
Qed.

Lemma requestsOf_app (tr1 tr2 : list Observation) :
  requestsOf (tr1 ++ tr2) = requestsOf tr1 ++ requestsOf tr2.
Proof.
  induction tr1 as [| o tr1 IH]; simpl; [reflexivity |].
  destruct o; simpl; rewrite IH; reflexivity.
Qed.

Lemma readsOf_app (tr1 tr2 : list Observation) :
  readsOf (tr1 ++ tr2) = readsOf tr1 ++ readsOf tr2.
Proof.
  induction tr1 as [| o tr1 IH]; simpl; [reflexivity |].
  destruct o; simpl; rewrite IH; reflexivity.
Qed.

Lemma alertsOf_app (tr1 tr2 : list Observation) :
  alertsOf (tr1 ++ tr2) = alertsOf tr1 ++ alertsOf tr2.
Proof.
  induction tr1 as [| o tr1 IH]; simpl; [reflexivity |].
  destruct o; simpl; rewrite IH; reflexivity.
Qed.

Lemma steps_cons (e : Event) (es : list Event) (w : World) :
  steps (e :: es) w = steps es (step e w).
Proof. reflexivity. Qed.

(** The handler parked last is resumed at position [length (pending w)]. *)
Lemma resume_last_read (o : Origin) (f : File) (k : ReadOutcome -> Proc unit)
    (ended : ReadOutcome) (seen : Observation) (w : World) :
  step (ReadEnded (length (pending w)) ended)
       (suspend (o, AwaitRead f k) (observe seen w)) =
  run o (k ended) (observe seen w).
Proof.
  unfold step. cbn [pending suspend observe]. rewrite nth_error_last.
  unfold unpark, suspend, observe. cbn [pending app inputs trace].
  rewrite removeNth_last. reflexivity.
Qed.

Lemma resume_last_remote (o : Origin) (request : GenerateContentParameters)
    (k : RemoteOutcome -> Proc unit) (ended : RemoteOutcome)
    (seen : Observation) (w : World) :
  step (RemoteEnded (length (pending w)) ended)
       (suspend (o, AwaitRemote request k) (observe seen w)) =
  run o (k ended) (observe seen w).
Proof.
  unfold step. cbn [pending suspend observe]. rewrite nth_error_last.
  unfold unpark, suspend, observe. cbn [pending app inputs trace].
  rewrite removeNth_last. reflexivity.
Qed.

(** Running to completion agrees with the event loop: a handler started
    in the page and answered at each of its suspensions as the
    environment would leaves the React state, the parked handlers and
    the remote calls made as [exec] computes them. *)
Lemma exec_agrees_with_event_loop (env : Env) (o : Origin) (p : Proc unit) :
  forall w : World,
    let looped := steps (answers env p (length (pending w))) (run o p w) in
    let completed := snd (exec env p w) in
    app looped = app completed
    /\ pending looped = pending completed
    /\ requestsOf (trace looped) = requestsOf (trace completed).
Proof.
  induction p as [a | v | e k IH | file k IH | request k IH]; intro w.
  - simpl. auto.
  - simpl. rewrite requestsOf_app. simpl. rewrite app_nil_r. auto.
  - assert (Hlen : length (pending (apply e w)) = length (pending w))
      by (destruct e; reflexivity).
    specialize (IH (apply e w)). rewrite Hlen in IH. exact IH.
  - cbn [answers run exec]. rewrite steps_cons, resume_last_read.
    exact (IH (readAsDataURL env file) (observe (SawRead file) w)).
  - cbn [answers run exec]. rewrite steps_cons, resume_last_remote.
    exact (IH (generateContent env request) (observe (SawRequest request) w)).
Qed.

(** One run of [handleGenerate] with its inputs present and both reads
    successful, in terms of the run of [generateEditedImage] inside. *)
Lemma handleGenerate_exec (env : Env) (w : World) (base logo : ImageFile)
    (baseURL logoURL : string) :
  baseImage (app w) = Some base ->
  logoImage (app w) = Some logo ->
  truthy (prompt (app w)) = true ->
  readAsDataURL env (file base) = Loaded baseURL ->
  readAsDataURL env (file logo) = Loaded logoURL ->
  exec env (handleGenerate (app w)) w =
  let started :=
    apply (SetGeneratedImage None)
      (apply (SetError None) (apply (SetIsLoading true) w)) in
  let encoded := observe (SawRead (file logo))
                   (observe (SawRead (file base)) started) in
  match exec env (GeminiService.generateEditedImage
                    (paramsAfterReads (app w) base logo baseURL logoURL))
             encoded with
  | (Resolved uri, w') =>
      (Resolved tt,
       apply (SetIsLoading false) (apply (SetGeneratedImage (Some uri)) w'))
  | (Rejected err, w') =>
      (Resolved tt,
       apply (SetIsLoading false)
         (apply (SetError (Some (caughtMessage err))) w'))
  end.
Proof.
  intros Hbase Hlogo Hprompt HreadBase HreadLogo.
  unfold handleGenerate. rewrite Hbase, Hlogo, Hprompt.
  cbn [bind perform exec].
  rewrite exec_tryFinally, exec_tryCatch.
  unfold fileToBase64. cbn [bind exec].
  rewrite HreadBase. cbn [bind exec]. rewrite HreadLogo. cbn [bind exec].
  rewrite exec_bind.
  fold (paramsAfterReads (app w) base logo baseURL logoURL).
  destruct (exec env (GeminiService.generateEditedImage _) _) as [[uri | err] w'];
    reflexivity.
Qed.

(** ** The Edit Request Client *)

(** C1. When the remote service answers the edit request with a response
    whose content parts (the parts of the content of its first
    candidate) hold an inline image, [generateEditedImage] resolves to
    the data URI of the first such part, built from that part's media
    type and content, whatever the parts after it and the other
    candidates are. *)
Theorem generateEditedImage_first_inline_part :
  forall (env : Env) (params : GeminiService.GenerateImageParams) (w : World)
         (response : GenerateContentResponse)
         (first : Candidate) (others : list Candidate) (c : Content)
         (before rest : list Part) (part : Part) (inline : Blob),
    generateContent env (editRequest params) = RemoteOk response ->
    candidates response = Some (first :: others) ->
    content first = Some c ->
    parts c = Some (before ++ part :: rest) ->
    Forall (fun p => inlineData p = None) before ->
    inlineData part = Some inline ->
    fst (exec env (GeminiService.generateEditedImage params) w) =
      Resolved ("data:" ++ templ (mimeType inline)
                ++ ";base64," ++ templ (data inline))%string
    /\ forall mediaType content : string,
         mimeType inline = Some mediaType ->
         data inline = Some content ->
         fst (exec env (GeminiService.generateEditedImage params) w) =
           Resolved (dataURI mediaType content).
Proof.
  intros env params w response first others c before rest part inline
         Hanswer Hcandidates Hcontent Hparts Hb Hi.
  assert (Hsplit : GeminiService.responseParts response = before ++ part :: rest).
  { unfold GeminiService.responseParts.
    rewrite Hcandidates, Hcontent, Hparts. reflexivity. }
  assert (Hrun : fst (exec env (GeminiService.generateEditedImage params) w) =
                 Resolved ("data:" ++ templ (mimeType inline)
                           ++ ";base64," ++ templ (data inline))%string).
  { rewrite generateEditedImage_exec. cbv zeta. rewrite Hanswer, Hsplit.
    rewrite (forOfParts_first before rest part inline _ Hb Hi). reflexivity. }
  split; [exact Hrun |].
  intros mediaType content Hm Hd. rewrite Hrun, Hm, Hd. reflexivity.
Qed.

Lemma generateEditedImage_first_inline_part_witness :
  fst (exec (Examples.answering (RemoteOk Examples.twoPictures))
            (GeminiService.generateEditedImage Examples.params)
            Examples.ready) =
  Resolved "data:image/png;base64,Rk9P".
Proof.
  apply (generateEditedImage_first_inline_part
           (Examples.answering (RemoteOk Examples.twoPictures))
           Examples.params Examples.ready Examples.twoPictures
           (mkCandidate
              (Some (mkContent
                       (Some [Examples.caption; Examples.firstPicture;
                              Examples.secondPicture]))))
           []
           (mkContent
              (Some [Examples.caption; Examples.firstPicture;
                     Examples.secondPicture]))
           [Examples.caption] [Examples.secondPicture] Examples.firstPicture
           (mkBlob (Some "Rk9P") (Some "image/png"))).
  - reflexivity.
  - reflexivity.
  - reflexivity.
  - reflexivity.
  - repeat constructor.
  - reflexivity.
Defined.

(** C2. For every pair of encoded images and every instruction,
    [generateEditedImage] sends exactly one request, and its payload is
    the three parts in this order: the base image's content and media
    type, the logo image's content and media type, the instruction as
    text. *)
Theorem generateEditedImage_payload :
  forall (env : Env) (base logo : GeminiService.EncodedImage)
         (instruction : string) (w : World),
  exists request : GenerateContentParameters,
    requestsOf
      (trace (snd (exec env
                     (GeminiService.generateEditedImage
                        (GeminiService.mkParams base logo instruction)) w))) =
      requestsOf (trace w) ++ [request]
    /\ parts (contents request) =
       Some [ mkPart (Some (mkBlob (GeminiService.data base)
                                   (Some (GeminiService.mimeType base)))) None;
              mkPart (Some (mkBlob (GeminiService.data logo)
                                   (Some (GeminiService.mimeType logo)))) None;
              mkPart None (Some instruction) ]
    /\ model request = "gemini-2.5-flash-image"
    /\ responseModalities (config request) = [IMAGE].
Proof.
  intros env base logo instruction w.
  exists (editRequest (GeminiService.mkParams base logo instruction)).
  split; [| repeat split].
  rewrite generateEditedImage_exec. cbv zeta.
  destruct (generateContent env _) as [response | thrown].
  - destruct (parts_scan (GeminiService.responseParts response))
      as [Hnone | (before & part & rest & inline & Hsplit & Hb & Hi)].
    + rewrite (forOfParts_none _ _ Hnone). simpl.
      rewrite !requestsOf_app. simpl. rewrite app_nil_r. reflexivity.
    + rewrite Hsplit, (forOfParts_first _ _ _ _ _ Hb Hi). simpl.
      rewrite requestsOf_app. reflexivity.
  - destruct thrown; simpl; rewrite !requestsOf_app; simpl;
      rewrite app_nil_r; reflexivity.
Qed.

(** C3. When the remote service answers with a response none of whose
    parts holds an inline image, [generateEditedImage] rejects with the
    no-image message; and a submission whose two reads succeeded ends
    with the controller in Failed, carrying that message. *)
Theorem no_image_rejects_and_fails :
  (forall (env : Env) (params : GeminiService.GenerateImageParams) (w : World)
          (response : GenerateContentResponse),
      generateContent env (editRequest params) = RemoteOk response ->
      Forall (fun p => inlineData p = None)
             (GeminiService.responseParts response) ->
      fst (exec env (GeminiService.generateEditedImage params) w) =
        Rejected (JsStr "No image was generated in the response."))
  /\
  (forall (env : Env) (w : World) (base logo : ImageFile)
          (baseURL logoURL : string) (response : GenerateContentResponse),
      baseImage (app w) = Some base ->
      logoImage (app w) = Some logo ->
      truthy (prompt (app w)) = true ->
      readAsDataURL env (file base) = Loaded baseURL ->
      readAsDataURL env (file logo) = Loaded logoURL ->
      generateContent env
        (editRequest (paramsAfterReads (app w) base logo baseURL logoURL)) =
        RemoteOk response ->
      Forall (fun p => inlineData p = None)
             (GeminiService.responseParts response) ->
      let after := app (snd (exec env (handleGenerate (app w)) w)) in
      error after = Some "No image was generated in the response."
      /\ isLoading after = false
      /\ generatedImage after = None
      /\ workflowState after = Failed "No image was generated in the response.").
Proof.
  assert (Hclient :
    forall env params w response,
      generateContent env (editRequest params) = RemoteOk response ->
      Forall (fun p => inlineData p = None)
             (GeminiService.responseParts response) ->
      exec env (GeminiService.generateEditedImage params) w =
        (Rejected (JsStr noImageReturned),
         observe (SawConsoleError "Error generating image with Gemini:"
                    (JsErr "Error" noImageReturned))
           (observe (SawRequest (editRequest params)) w))).
  { intros env params w response Hanswer Hnone.
    rewrite generateEditedImage_exec. cbv zeta.
    rewrite Hanswer, (forOfParts_none _ _ Hnone). reflexivity. }
  split.
  - intros env params w response Hanswer Hnone.
    rewrite (Hclient env params w response Hanswer Hnone). reflexivity.
  - intros env w base logo baseURL logoURL response
           Hbase Hlogo Hprompt HreadBase HreadLogo Hanswer Hnone after.
    subst after.
    rewrite (handleGenerate_exec env w base logo baseURL logoURL
               Hbase Hlogo Hprompt HreadBase HreadLogo).
    cbv zeta. rewrite (Hclient env _ _ response Hanswer Hnone).
    cbn. repeat split; reflexivity.
Qed.

Lemma no_image_rejects_and_fails_witness :
  fst (exec (Examples.answering (RemoteOk Examples.noPicture))
            (GeminiService.generateEditedImage Examples.params)
            Examples.ready) =
    Rejected (JsStr "No image was generated in the response.")
  /\ workflowState
       (app (snd (exec (Examples.answering (RemoteOk Examples.noPicture))
                       (handleGenerate (app Examples.ready)) Examples.ready))) =
     Failed "No image was generated in the response.".
Proof.
  split.
  - apply (proj1 no_image_rejects_and_fails
             (Examples.answering (RemoteOk Examples.noPicture))
             Examples.params Examples.ready Examples.noPicture).
    + reflexivity.
    + repeat constructor.
  - apply (proj2 no_image_rejects_and_fails
             (Examples.answering (RemoteOk Examples.noPicture))
             Examples.ready Examples.personImage Examples.logoImage
             "data:image/png;base64,AAAA" "data:image/jpeg;base64,AAAA"
             Examples.noPicture);
      try reflexivity.
    repeat constructor.
Defined.

(** C10. Whenever [generateEditedImage] fails, its promise rejects with
    a plain string and never with an [Error]: the message of the
    [Error] that was thrown (the remote call's, or the no-image one
    thrown inside the function and caught by its own handler), or the
    fixed unknown-error text.  So [err instanceof Error] is false in
    the controller, and the message it stores is [String(err)]. *)
Theorem generateEditedImage_rejects_with_string :
  forall (env : Env) (params : GeminiService.GenerateImageParams) (w : World)
         (err : JsValue),
    fst (exec env (GeminiService.generateEditedImage params) w) = Rejected err ->
    (exists reason : string,
        err = JsStr reason
        /\ ((exists response,
                generateContent env (editRequest params) = RemoteOk response
                /\ Forall (fun p => inlineData p = None)
                          (GeminiService.responseParts response)
                /\ reason = "No image was generated in the response.")
            \/ (exists name,
                   generateContent env (editRequest params) =
                     RemoteFailed (JsErr name reason))
            \/ (exists thrown,
                   generateContent env (editRequest params) = RemoteFailed thrown
                   /\ instanceofError thrown = false
                   /\ reason =
                      "An unknown error occurred while generating the image.")))
    /\ instanceofError err = false
    /\ caughtMessage err = toString err
    /\ forall (base logo : ImageFile) (baseURL logoURL : string),
         baseImage (app w) = Some base ->
         logoImage (app w) = Some logo ->
         truthy (prompt (app w)) = true ->
         readAsDataURL env (file base) = Loaded baseURL ->
         readAsDataURL env (file logo) = Loaded logoURL ->
         params = paramsAfterReads (app w) base logo baseURL logoURL ->
         let after := app (snd (exec env (handleGenerate (app w)) w)) in
         error after = Some (toString err) /\ isLoading after = false.
Proof.
  intros env params w err Hrejected.
  assert (Hstring :
    exists reason : string,
      err = JsStr reason
      /\ ((exists response,
              generateContent env (editRequest params) = RemoteOk response
              /\ Forall (fun p => inlineData p = None)
                        (GeminiService.responseParts response)
              /\ reason = "No image was generated in the response.")
          \/ (exists name,
                 generateContent env (editRequest params) =
                   RemoteFailed (JsErr name reason))
          \/ (exists thrown,
                 generateContent env (editRequest params) = RemoteFailed thrown
                 /\ instanceofError thrown = false
                 /\ reason =
                    "An unknown error occurred while generating the image."))).
  { rewrite generateEditedImage_exec in Hrejected. cbv zeta in Hrejected.
    destruct (generateContent env (editRequest params))
      as [response | thrown] eqn:Hanswer.
    - destruct (parts_scan (GeminiService.responseParts response))
        as [Hnone | (before & part & rest & inline & Hsplit & Hb & Hi)].
      + rewrite (forOfParts_none _ _ Hnone) in Hrejected. simpl in Hrejected.
        injection Hrejected as <-.
        exists noImageReturned. split; [reflexivity |].
        left. exists response. auto.
      + rewrite Hsplit, (forOfParts_first _ _ _ _ _ Hb Hi) in Hrejected.
        discriminate Hrejected.
    - destruct thrown as [| | s | name message | tag];
        simpl in Hrejected; injection Hrejected as <-;
        eexists; (split; [reflexivity |]); right.
      + right. exists JsUndefined. auto.
      + right. exists JsNull. auto.
      + right. exists (JsStr s). auto.
      + left. exists name. reflexivity.
      + right. exists (JsObj tag). auto. }
  destruct Hstring as (reason & -> & Hwhy).
  split; [exists reason; auto |].
  split; [reflexivity |].
  split; [reflexivity |].
  intros base logo baseURL logoURL Hbase Hlogo Hprompt HreadBase HreadLogo -> after.
  subst after.
  rewrite (handleGenerate_exec env w base logo baseURL logoURL
             Hbase Hlogo Hprompt HreadBase HreadLogo).
  cbv zeta.
  match goal with
  | |- context [exec env (GeminiService.generateEditedImage ?p) ?w0] =>
      pose proof (exec_outcome_any_world env
                    (GeminiService.generateEditedImage p) w0 w) as Hsame;
      destruct (exec env (GeminiService.generateEditedImage p) w0)
        as [[uri | err'] w']
  end; cbn [fst] in Hsame; rewrite Hrejected in Hsame.
  - discriminate Hsame.
  - injection Hsame as ->. simpl. auto.
Qed.

Lemma generateEditedImage_rejects_with_string_witness :
  instanceofError (JsStr "quota exceeded") = false
  /\ error
       (app (snd (exec (Examples.answering
                          (RemoteFailed (JsErr "ApiError" "quota exceeded")))
                       (handleGenerate (app Examples.ready)) Examples.ready))) =
     Some "quota exceeded".
Proof.
  pose proof (generateEditedImage_rejects_with_string
                (Examples.answering
                   (RemoteFailed (JsErr "ApiError" "quota exceeded")))
                (paramsAfterReads (app Examples.ready)
                   Examples.personImage Examples.logoImage
                   "data:image/png;base64,AAAA" "data:image/jpeg;base64,AAAA")
                Examples.ready (JsStr "quota exceeded") eq_refl)
    as (_ & Hnot & _ & Hcontroller).
  split; [exact Hnot |].
  apply (Hcontroller Examples.personImage Examples.logoImage
           "data:image/png;base64,AAAA" "data:image/jpeg;base64,AAAA");
    reflexivity.
Defined.

(** ** Image Intake *)

(** Above the limit the picker path only raises the alert. *)
Lemma handleFileChange_oversize (props : ImageUploaderProps)
    (files : option (list File)) (file : File) :
  firstFile files = Some file ->
  (size file > 4 * 1024 * 1024)%Z ->
  handleFileChange props files = perform (Alert oversize).
Proof.
  intros Hfirst Hsize. unfold handleFileChange. rewrite Hfirst.
  destruct (Z.gtb_spec (size file) (4 * 1024 * 1024)) as [_ | Hle];
    [reflexivity | lia].
Qed.

(** Above the limit the drop path raises the alert for an image type
    and does nothing more for any other type. *)
Lemma handleDrop_oversize (props : ImageUploaderProps)
    (files : option (list File)) (file : File) :
  firstFile files = Some file ->
  (size file > 4 * 1024 * 1024)%Z ->
  handleDrop props files =
  (perform PreventDefault ;;
   perform StopPropagation ;;
   if startsWith "image/" (type file) then perform (Alert oversize)
   else Ret tt).
Proof.
  intros Hfirst Hsize. unfold handleDrop. rewrite Hfirst.
  destruct (Z.gtb_spec (size file) (4 * 1024 * 1024)) as [_ | Hle];
    [reflexivity | lia].
Qed.

(** Within the limit either path, once past its own type test, starts
    the read whose end stores the selection. *)
Lemma handleFileChange_accepts (props : ImageUploaderProps)
    (files : option (list File)) (file : File) :
  firstFile files = Some file ->
  (size file <= 4 * 1024 * 1024)%Z ->
  handleFileChange props files =
  ReadAsDataURL file (fun ended =>
    onImageUpload props (Some (mkImageFile file (readerResult ended)))).
Proof.
  intros Hfirst Hsize. unfold handleFileChange. rewrite Hfirst.
  destruct (Z.gtb_spec (size file) (4 * 1024 * 1024)) as [Hgt | _];
    [lia | reflexivity].
Qed.

Lemma handleDrop_accepts (props : ImageUploaderProps)
    (files : option (list File)) (file : File) :
  firstFile files = Some file ->
  startsWith "image/" (type file) = true ->
  (size file <= 4 * 1024 * 1024)%Z ->
  handleDrop props files =
  (perform PreventDefault ;;
   perform StopPropagation ;;
   ReadAsDataURL file (fun ended =>
     onImageUpload props (Some (mkImageFile file (readerResult ended))))).
Proof.
  intros Hfirst Htype Hsize. unfold handleDrop. rewrite Hfirst, Htype.
  destruct (Z.gtb_spec (size file) (4 * 1024 * 1024)) as [Hgt | _];
    [lia | reflexivity].
Qed.

(** C6, as amended.  For every candidate above 4 MiB neither intake path
    reads the file, leaves a read waiting or changes the selection.
    The file-dialog path raises the oversize alert; the drag-and-drop
    path raises it when the declared type starts with [image/], and
    ignores a candidate of any other type without an alert. *)
Theorem oversize_candidate_rejected :
  forall (s : Slot) (files : option (list File)) (file : File) (w : World),
    firstFile files = Some file ->
    (size file > 4 * 1024 * 1024)%Z ->
    rejectedAsOversize (FileChosen s files) w
    /\ (startsWith "image/" (type file) = true ->
        rejectedAsOversize (FilesDropped s files) w)
    /\ (startsWith "image/" (type file) = false ->
        ignoredSilently (FilesDropped s files) w).
Proof.
  intros s files file w Hfirst Hsize.
  unfold rejectedAsOversize, ignoredSilently. cbv zeta. unfold step.
  rewrite (handleFileChange_oversize _ _ _ Hfirst Hsize).
  rewrite (handleDrop_oversize _ _ _ Hfirst Hsize).
  split; [| split].
  - simpl. rewrite alertsOf_app, readsOf_app. simpl.
    rewrite app_nil_r. auto.
  - intros ->. simpl. rewrite !alertsOf_app, !readsOf_app. simpl.
    rewrite !app_nil_r. auto.
  - intros ->. simpl. rewrite !alertsOf_app, !readsOf_app. simpl.
    rewrite !app_nil_r. auto.
Qed.

Lemma oversize_candidate_rejected_witness :
  rejectedAsOversize (FileChosen BaseSlot (Some [Examples.bigPhoto]))
    Examples.ready
  /\ rejectedAsOversize (FilesDropped LogoSlot (Some [Examples.bigPhoto]))
       Examples.ready
  /\ ignoredSilently (FilesDropped LogoSlot (Some [Examples.bigScan]))
       Examples.ready.
Proof.
  split; [| split].
  - exact (proj1 (oversize_candidate_rejected BaseSlot
                    (Some [Examples.bigPhoto]) Examples.bigPhoto Examples.ready
                    eq_refl eq_refl)).
  - exact (proj1 (proj2 (oversize_candidate_rejected LogoSlot
                           (Some [Examples.bigPhoto]) Examples.bigPhoto
                           Examples.ready eq_refl eq_refl)) eq_refl).
  - exact (proj2 (proj2 (oversize_candidate_rejected LogoSlot
                           (Some [Examples.bigScan]) Examples.bigScan
                           Examples.ready eq_refl eq_refl)) eq_refl).
Defined.

(** C6, as stated, fails: a dropped file of 5,000,000 bytes whose type
    does not start with [image/] is above 4 MiB, yet the drag-and-drop
    path raises no oversize alert for it. *)
Lemma oversize_drop_without_alert :
  (size Examples.bigScan > 4 * 1024 * 1024)%Z
  /\ ~ rejectedAsOversize (FilesDropped BaseSlot (Some [Examples.bigScan]))
         Examples.ready.
Proof.
  split; [simpl; lia |].
  intros (Halert & _). vm_compute in Halert. discriminate Halert.
Qed.

Lemma acceptedTypes_allowList : acceptedTypes = allowList.
Proof. reflexivity. Qed.

Lemma pickerOffers_allowList (f : File) :
  pickerOffers f = true <-> In (type f) allowList.
Proof.
  unfold pickerOffers. rewrite acceptedTypes_allowList, existsb_exists.
  split.
  - intros (t & Hin & Heq). apply String.eqb_eq in Heq. subst t. exact Hin.
  - intro Hin. exists (type f). split; [exact Hin | apply String.eqb_refl].
Qed.

Lemma selected_slotSetter (s : Slot) (image : option ImageFile) (w : World) :
  selected s (app (apply (slotSetter s image) w)) = image.
Proof. destruct s; reflexivity. Qed.

Lemma onImageUpload_uploader (s : Slot) (st : AppState) (image : option ImageFile) :
  onImageUpload (uploader s st) image = perform (slotSetter s image).
Proof. destruct s; reflexivity. Qed.

(** C8. The file input's [accept] filter lists exactly PNG, JPEG and
    WEBP, while the drag-and-drop path takes the first dropped file
    whenever it is within the size limit and its declared type starts
    with [image/], and ignores it when the type does not: some file
    outside the allow-list, which the picker's filter excludes, is read
    and stored by drag-and-drop. *)
Theorem intake_type_policies_differ :
  acceptedTypes = ["image/png"; "image/jpeg"; "image/webp"]
  /\ (forall f : File,
         pickerOffers f = true <->
         In (type f) ["image/png"; "image/jpeg"; "image/webp"])
  /\ (forall (s : Slot) (f : File) (others : list File) (w : World)
             (ended : ReadOutcome),
         startsWith "image/" (type f) = true ->
         (size f <= 4 * 1024 * 1024)%Z ->
         let dropped := step (FilesDropped s (Some (f :: others))) w in
         readsOf (trace dropped) = readsOf (trace w) ++ [f]
         /\ selected s
              (app (step (ReadEnded (length (pending w)) ended) dropped)) =
            Some (mkImageFile f (readerResult ended)))
  /\ (forall (s : Slot) (f : File) (others : list File) (w : World),
         startsWith "image/" (type f) = false ->
         ignoredSilently (FilesDropped s (Some (f :: others))) w)
  /\ exists f : File,
       pickerOffers f = false
       /\ startsWith "image/" (type f) = true
       /\ (size f <= 4 * 1024 * 1024)%Z
       /\ forall (s : Slot) (others : list File) (w : World)
                 (ended : ReadOutcome),
            selected s
              (app (step (ReadEnded (length (pending w)) ended)
                      (step (FilesDropped s (Some (f :: others))) w))) =
            Some (mkImageFile f (readerResult ended)).
Proof.
  assert (Haccepts :
    forall (s : Slot) (f : File) (others : list File) (w : World)
           (ended : ReadOutcome),
      startsWith "image/" (type f) = true ->
      (size f <= 4 * 1024 * 1024)%Z ->
      readsOf (trace (step (FilesDropped s (Some (f :: others))) w)) =
        readsOf (trace w) ++ [f]
      /\ selected s
           (app (step (ReadEnded (length (pending w)) ended)
                   (step (FilesDropped s (Some (f :: others))) w))) =
         Some (mkImageFile f (readerResult ended))).
  { intros s f others w ended Htype Hsize.
    assert (Hdrop : step (FilesDropped s (Some (f :: others))) w =
              suspend (FromUploader (id (uploader s (app w))),
                       AwaitRead f (fun ended =>
                         onImageUpload (uploader s (app w))
                           (Some (mkImageFile f (readerResult ended)))))
                (observe (SawRead f)
                   (observe SawStopPropagation
                      (observe SawPreventDefault w)))).
    { unfold step. cbv zeta.
      rewrite (handleDrop_accepts _ (Some (f :: others)) f eq_refl Htype Hsize).
      reflexivity. }
    rewrite Hdrop. split.
    + simpl. rewrite !readsOf_app. simpl. rewrite !app_nil_r. reflexivity.
    + unfold step. cbn [pending suspend observe].
      rewrite nth_error_last. unfold unpark. cbn [pending suspend observe].
      rewrite removeNth_last, onImageUpload_uploader.
      cbn [perform run]. apply selected_slotSetter. }
  split; [reflexivity |].
  split; [exact pickerOffers_allowList |].
  split; [| split].
  - intros s f others w ended Htype Hsize dropped. subst dropped.
    apply Haccepts; assumption.
  - intros s f others w Htype.
    unfold ignoredSilently, step, handleDrop. cbv zeta.
    cbn [firstFile]. rewrite Htype. simpl.
    rewrite !alertsOf_app, !readsOf_app. simpl. rewrite !app_nil_r. auto.
  - exists Examples.animation.
    split; [reflexivity |]. split; [reflexivity |].
    split; [simpl; lia |].
    intros s others w ended.
    apply Haccepts; [reflexivity | simpl; lia].
Qed.

Lemma intake_type_policies_differ_witness :
  pickerOffers Examples.animation = false
  /\ selected BaseSlot
       (app (step (ReadEnded 0 (Loaded "data:image/gif;base64,R0lG"))
               (step (FilesDropped BaseSlot
                        (Some [Examples.animation; Examples.bigScan]))
                     Examples.ready))) =
     Some (mkImageFile Examples.animation (Some "data:image/gif;base64,R0lG"))
  /\ ignoredSilently
       (FilesDropped BaseSlot (Some [Samples.notes; Examples.animation]))
       Examples.ready.
Proof.
  split; [reflexivity |]. split.
  - exact (proj2 (proj1 (proj2 (proj2 intake_type_policies_differ))
                    BaseSlot Examples.animation [Examples.bigScan]
                    Examples.ready (Loaded "data:image/gif;base64,R0lG")
                    eq_refl ltac:(simpl; lia))).
  - exact (proj1 (proj2 (proj2 (proj2 intake_type_policies_differ)))
             BaseSlot Samples.notes [Examples.animation] Examples.ready
             eq_refl).
Defined.

(** ** The Session Controller *)

Lemma handleGenerate_missing_input (st : AppState) :
  baseImage st = None \/ logoImage st = None \/ prompt st = "" ->
  handleGenerate st = perform (SetError (Some missingInput)).
Proof.
  unfold handleGenerate.
  intros [H | [H | H]]; rewrite H.
  - reflexivity.
  - destruct (baseImage st); reflexivity.
  - destruct (baseImage st), (logoImage st); reflexivity.
Qed.

Lemma truthy_nonempty (s : string) : s <> "" -> truthy s = true.
Proof.
  intro H. unfold truthy. destruct (String.eqb_spec s ""); [contradiction | reflexivity].
Qed.

(** With its inputs present [handleGenerate] raises the loading flag,
    clears the error and the result, and starts reading the base
    image. *)
Lemma handleGenerate_starts (w : World) (base logo : ImageFile) :
  baseImage (app w) = Some base ->
  logoImage (app w) = Some logo ->
  prompt (app w) <> "" ->
  exists k : ReadOutcome -> Proc unit,
    run FromGenerate (handleGenerate (app w)) w =
    suspend (FromGenerate, AwaitRead (file base) k)
      (observe (SawRead (file base))
         (apply (SetGeneratedImage None)
            (apply (SetError None) (apply (SetIsLoading true) w)))).
Proof.
  intros Hbase Hlogo Hprompt. unfold handleGenerate.
  rewrite Hbase, Hlogo, (truthy_nonempty _ Hprompt).
  eexists. reflexivity.
Qed.

(** C4, as amended.  Whenever an image slot is null or the instruction
    is empty, a submission does not call the remote service, starts no
    read, parks no handler and leaves the image slots, the instruction,
    the loading flag and the previous result as they were; all
    [handleGenerate] does is store the missing-input message in
    [error].  With a null image slot the Generate button is disabled and
    a click on it changes nothing at all. *)
Theorem submission_with_missing_input :
  forall w : World,
    baseImage (app w) = None \/ logoImage (app w) = None \/ prompt (app w) = "" ->
    run FromGenerate (handleGenerate (app w)) w =
      apply (SetError (Some "Please provide a base image, a logo image, and a prompt.")) w
    /\ step GenerateClicked w =
       (if generateDisabled (app w) then w
        else apply (SetError (Some "Please provide a base image, a logo image, and a prompt.")) w)
    /\ (baseImage (app w) = None \/ logoImage (app w) = None ->
        step GenerateClicked w = w)
    /\ (isLoading (app w) = false ->
        workflowState (app (run FromGenerate (handleGenerate (app w)) w)) =
          Failed "Please provide a base image, a logo image, and a prompt.")
    /\ (forall submitted : World,
           submitted = run FromGenerate (handleGenerate (app w)) w
           \/ submitted = step GenerateClicked w ->
           requestsOf (trace submitted) = requestsOf (trace w)
           /\ readsOf (trace submitted) = readsOf (trace w)
           /\ pending submitted = pending w
           /\ baseImage (app submitted) = baseImage (app w)
           /\ logoImage (app submitted) = logoImage (app w)
           /\ prompt (app submitted) = prompt (app w)
           /\ isLoading (app submitted) = isLoading (app w)
           /\ generatedImage (app submitted) = generatedImage (app w)).
Proof.
  intros w Hmissing.
  assert (Hcall : run FromGenerate (handleGenerate (app w)) w =
                  apply (SetError (Some missingInput)) w).
  { rewrite (handleGenerate_missing_input _ Hmissing). reflexivity. }
  assert (Hclick : step GenerateClicked w =
                   if generateDisabled (app w) then w
                   else apply (SetError (Some missingInput)) w).
  { unfold step. rewrite Hcall. reflexivity. }
  split; [exact Hcall |]. split; [exact Hclick |]. split; [| split].
  - intros Hnull. rewrite Hclick. unfold generateDisabled.
    destruct Hnull as [-> | ->]; simpl;
      rewrite ?orb_true_r; reflexivity.
  - intro Hidle. rewrite Hcall. unfold workflowState. simpl.
    rewrite Hidle. reflexivity.
  - intros submitted [-> | ->].
    + rewrite Hcall. simpl. repeat split; reflexivity.
    + rewrite Hclick. destruct (generateDisabled (app w)); simpl;
        repeat split; reflexivity.
Qed.

Lemma submission_with_missing_input_witness :
  step GenerateClicked initial = initial
  /\ step GenerateClicked Examples.withoutInstruction =
     apply (SetError (Some "Please provide a base image, a logo image, and a prompt."))
       Examples.withoutInstruction.
Proof.
  split.
  - exact (proj1 (proj2 (proj2 (submission_with_missing_input initial
                                  (or_introl eq_refl))))
             (or_introl eq_refl)).
  - exact (proj1 (proj2 (submission_with_missing_input
                           Examples.withoutInstruction
                           (or_intror (or_intror eq_refl))))).
Defined.

(** C4, as stated, fails: with both images selected and an empty
    instruction the page is Idle, and the submission (the click on the
    enabled button, which calls [handleGenerate]) moves it to Failed. *)
Lemma empty_instruction_leaves_Idle :
  prompt (app Examples.withoutInstruction) = ""
  /\ workflowState (app Examples.withoutInstruction) = Idle
  /\ workflowState (app (step GenerateClicked Examples.withoutInstruction)) =
     Failed "Please provide a base image, a logo image, and a prompt."
  /\ ~ submissionIsNoOp (step GenerateClicked Examples.withoutInstruction)
         Examples.withoutInstruction
  /\ ~ submissionIsNoOp
         (run FromGenerate (handleGenerate (app Examples.withoutInstruction))
              Examples.withoutInstruction)
         Examples.withoutInstruction.
Proof.
  repeat split; try reflexivity.
  - intros (Hstate & _). vm_compute in Hstate. discriminate Hstate.
  - intros (Hstate & _). vm_compute in Hstate. discriminate Hstate.
Qed.

(** C5. Called while the page is not loading, [handleGenerate] moves it
    to Loading exactly when both images are selected and the instruction
    is non-empty; otherwise it moves it to Failed with the missing-input
    message and the remote service is not called. *)
Theorem submission_enters_Loading_or_Failed :
  forall w : World,
    isLoading (app w) = false ->
    let submitted := run FromGenerate (handleGenerate (app w)) w in
    (workflowState (app submitted) = Loading <->
     baseImage (app w) <> None /\ logoImage (app w) <> None
     /\ prompt (app w) <> "")
    /\ (baseImage (app w) <> None /\ logoImage (app w) <> None
        /\ prompt (app w) <> "" ->
        isLoading (app submitted) = true
        /\ error (app submitted) = None
        /\ generatedImage (app submitted) = None
        /\ submissionsInFlight submitted = S (submissionsInFlight w))
    /\ (baseImage (app w) = None \/ logoImage (app w) = None
        \/ prompt (app w) = "" ->
        workflowState (app submitted) =
          Failed "Please provide a base image, a logo image, and a prompt."
        /\ error (app submitted) =
           Some "Please provide a base image, a logo image, and a prompt."
        /\ isLoading (app submitted) = false
        /\ requestsOf (trace submitted) = requestsOf (trace w)
        /\ pending submitted = pending w)
    /\ (generateDisabled (app w) = false ->
        step GenerateClicked w = submitted).
Proof.
  intros w Hidle submitted.
  assert (Hok : baseImage (app w) <> None /\ logoImage (app w) <> None
                /\ prompt (app w) <> "" ->
                isLoading (app submitted) = true
                /\ error (app submitted) = None
                /\ generatedImage (app submitted) = None
                /\ submissionsInFlight submitted = S (submissionsInFlight w)).
  { intros (Hb & Hl & Hp).
    destruct (baseImage (app w)) as [base |] eqn:Hbase; [| contradiction].
    destruct (logoImage (app w)) as [logo |] eqn:Hlogo; [| contradiction].
    destruct (handleGenerate_starts w base logo Hbase Hlogo Hp) as (k & Hrun).
    subst submitted. rewrite Hrun. repeat split.
    unfold submissionsInFlight. simpl.
    rewrite filter_app, length_app. simpl. lia. }
  assert (Hmissing : baseImage (app w) = None \/ logoImage (app w) = None
                     \/ prompt (app w) = "" ->
                     workflowState (app submitted) = Failed missingInput
                     /\ error (app submitted) = Some missingInput
                     /\ isLoading (app submitted) = false
                     /\ requestsOf (trace submitted) = requestsOf (trace w)
                     /\ pending submitted = pending w).
  { intro H. subst submitted.
    rewrite (handleGenerate_missing_input _ H). simpl.
    unfold workflowState. simpl. rewrite Hidle. auto. }
  split; [| split; [exact Hok | split; [exact Hmissing |]]].
  - split.
    + intro Hloading.
      destruct (baseImage (app w)) as [base |] eqn:Hbase;
        [| destruct Hmissing as (Hf & _); [auto | congruence]].
      destruct (logoImage (app w)) as [logo |] eqn:Hlogo;
        [| destruct Hmissing as (Hf & _); [auto | congruence]].
      destruct (String.eqb_spec (prompt (app w)) "") as [Hp | Hp];
        [destruct Hmissing as (Hf & _); [auto | congruence] |].
      repeat split; congruence.
    + intro Hall. destruct (Hok Hall) as (Hflag & _).
      unfold workflowState. rewrite Hflag. reflexivity.
  - intro Henabled. unfold step. rewrite Henabled. reflexivity.
Qed.

Lemma submission_enters_Loading_or_Failed_witness :
  workflowState
    (app (run FromGenerate (handleGenerate (app Examples.ready)) Examples.ready)) =
    Loading
  /\ workflowState
       (app (run FromGenerate (handleGenerate (app initial)) initial)) =
     Failed "Please provide a base image, a logo image, and a prompt.".
Proof.
  split.
  - apply (proj1 (submission_enters_Loading_or_Failed Examples.ready eq_refl)).
    repeat split; discriminate.
  - apply (proj1 (proj2 (proj2 (submission_enters_Loading_or_Failed
                                   initial eq_refl)))).
    left. reflexivity.
Defined.

(** ** The event loop keeps one submission in flight *)

Lemma keepsLoadingFlag_bind {A B : Type} (p : Proc A) (f : A -> Proc B) :
  keepsLoadingFlag p ->
  (forall a, keepsLoadingFlag (f a)) ->
  keepsLoadingFlag (bind p f).
Proof.
  intros Hp Hf.
  induction p as [a | v | e k IH | file k IH | request k IH]; simpl in *; auto.
  destruct e; auto.
Qed.

Lemma keepsLoadingFlag_tryCatch {A : Type} (p : Proc A) (h : JsValue -> Proc A) :
  keepsLoadingFlag p ->
  (forall v, keepsLoadingFlag (h v)) ->
  keepsLoadingFlag (tryCatch p h).
Proof.
  intros Hp Hh.
  induction p as [a | v | e k IH | file k IH | request k IH]; simpl in *; auto.
  destruct e; auto.
Qed.

Lemma keepsLoadingFlag_forOfParts (ps : list Part) (after : Proc string) :
  keepsLoadingFlag after ->
  keepsLoadingFlag (GeminiService.forOfParts ps after).
Proof.
  intro Hafter.
  induction ps as [| part rest IH]; simpl; [exact Hafter |].
  destruct (inlineData part); simpl; auto.
Qed.

Lemma keepsLoadingFlag_generateEditedImage
    (params : GeminiService.GenerateImageParams) :
  keepsLoadingFlag (GeminiService.generateEditedImage params).
Proof.
  unfold GeminiService.generateEditedImage.
  apply keepsLoadingFlag_tryCatch.
  - apply keepsLoadingFlag_bind.
    + simpl. intros [response | reason]; exact I.
    + intro response. apply keepsLoadingFlag_forOfParts. exact I.
  - intro v. simpl. destruct v; exact I.
Qed.

Lemma keepsLoadingFlag_fileToBase64 (f : File) :
  keepsLoadingFlag (fileToBase64 f).
Proof.
  simpl. intros [result |]; exact I.
Qed.

(** Wrapped in [finally { setIsLoading(false) }], a handler that leaves
    the flag alone settles. *)
Lemma settles_tryFinally (p : Proc unit) :
  keepsLoadingFlag p ->
  settles (tryFinally p (perform (SetIsLoading false))) true.
Proof.
  induction p as [a | v | e k IH | file k IH | request k IH]; simpl; intro Hp.
  - reflexivity.
  - reflexivity.
  - destruct e; simpl in *; auto; contradiction.
  - split; auto.
  - split; auto.
Qed.

Lemma handleGenerate_settles (st : AppState) :
  settles (handleGenerate st) false.
Proof.
  unfold handleGenerate.
  destruct (baseImage st) as [base |]; [| reflexivity].
  destruct (logoImage st) as [logo |]; [| reflexivity].
  destruct (truthy (prompt st)); [| reflexivity].
  cbn [bind perform settles].
  apply settles_tryFinally.
  apply keepsLoadingFlag_tryCatch; [| intro v; exact I].
  apply keepsLoadingFlag_bind; [apply keepsLoadingFlag_fileToBase64 |].
  intro baseImageBase64.
  apply keepsLoadingFlag_bind; [apply keepsLoadingFlag_fileToBase64 |].
  intro logoImageBase64.
  apply keepsLoadingFlag_bind; [apply keepsLoadingFlag_generateEditedImage |].
  intro result. exact I.
Qed.

Lemma removeNth_Forall {A : Type} (P : A -> Prop) (i : nat) (l : list A) :
  Forall P l -> Forall P (removeNth i l).
Proof.
  intro H. revert i.
  induction H as [| x l Hx Hl IH]; intros [| i]; simpl; auto.
Qed.

Lemma removeNth_count {A : Type} (P : A -> bool) (i : nat) (l : list A) (x : A) :
  nth_error l i = Some x ->
  length (filter P l) =
  (if P x then 1 else 0) + length (filter P (removeNth i l)).
Proof.
  revert i.
  induction l as [| y l IH]; intros [| i] Hnth; simpl in *; try discriminate.
  - injection Hnth as ->. destruct (P x); reflexivity.
  - specialize (IH i Hnth). destruct (P y), (P x); simpl in *; lia.
Qed.

Lemma nth_error_Forall {A : Type} (P : A -> Prop) (i : nat) (l : list A) (x : A) :
  Forall P l -> nth_error l i = Some x -> P x.
Proof.
  intros H Hnth. rewrite Forall_forall in H.
  apply H. eapply nth_error_In. exact Hnth.
Qed.

(** Resuming or starting a submission: it ends with the flag down and
    nothing parked, or parks itself once more with the flag up. *)
Lemma run_settles (p : Proc unit) :
  forall (flag : bool) (w : World),
    settles p flag ->
    isLoading (app w) = flag ->
    Forall parkedOk (pending w) ->
    let w' := run FromGenerate p w in
    Forall parkedOk (pending w')
    /\ ((isLoading (app w') = false /\ pending w' = pending w)
        \/ (isLoading (app w') = true
            /\ exists t, pending w' = pending w ++ [(FromGenerate, t)])).
Proof.
  induction p as [a | v | e k IH | file k IH | request k IH];
    intros flag w Hsettles Hflag Hparked; simpl in *.
  - split; [exact Hparked |]. left. split; congruence.
  - split; [exact Hparked |]. left. split; congruence.
  - destruct e; simpl in Hsettles;
      match goal with
      | |- context [run FromGenerate k ?w1] =>
          first [ exact (IH flag w1 Hsettles Hflag Hparked)
                | exact (IH _ w1 Hsettles eq_refl Hparked) ]
      end.
  - destruct Hsettles as (-> & Hk). split.
    + apply Forall_app. split; [exact Hparked |].
      constructor; [exact Hk | constructor].
    + right. split; [exact Hflag |]. eexists. reflexivity.
  - destruct Hsettles as (-> & Hk). split.
    + apply Forall_app. split; [exact Hparked |].
      constructor; [exact Hk | constructor].
    + right. split; [exact Hflag |]. eexists. reflexivity.
Qed.

Lemma submissions_parked (l : list (Origin * Suspended)) (t : Suspended) :
  length (filter isSubmission (l ++ [(FromGenerate, t)])) =
  S (length (filter isSubmission l)).
Proof.
  rewrite filter_app, length_app. simpl. lia.
Qed.

Lemma submissions_uploader (l : list (Origin * Suspended)) (i : string)
    (t : Suspended) :
  length (filter isSubmission (l ++ [(FromUploader i, t)])) =
  length (filter isSubmission l).
Proof.
  rewrite filter_app, length_app. simpl. lia.
Qed.

(** Starting or resuming a submission from a page with none in flight
    re-establishes the invariant. *)
Lemma run_settles_invariant (p : Proc unit) (flag : bool) (w : World) :
  settles p flag ->
  isLoading (app w) = flag ->
  Forall parkedOk (pending w) ->
  submissionsInFlight w = 0 ->
  invariant (run FromGenerate p w).
Proof.
  intros Hsettles Hflag Hparked Hnone.
  destruct (run_settles p flag w Hsettles Hflag Hparked)
    as (Hparked' & [(Hdown & Hsame) | (Hup & t & Hmore)]).
  - split; [exact Hparked' |].
    unfold submissionsInFlight in *. rewrite Hsame, Hdown. exact Hnone.
  - split; [exact Hparked' |].
    unfold submissionsInFlight in *.
    rewrite Hmore, Hup, submissions_parked, Hnone. reflexivity.
Qed.

Lemma uploader_id (s : Slot) (st : AppState) : id (uploader s st) = slotId s.
Proof. destruct s; reflexivity. Qed.

(** A file chosen or dropped leaves the React state alone and at most
    parks one read, whose end stores the selection in that slot. *)
Lemma intake_step (e : Event) (s : Slot) (files : option (list File)) (w : World) :
  e = FileChosen s files \/ e = FilesDropped s files ->
  app (step e w) = app w
  /\ (pending (step e w) = pending w
      \/ exists f k,
           pending (step e w) =
             pending w ++ [(FromUploader (slotId s), AwaitRead f k)]
           /\ parkedOk (FromUploader (slotId s), AwaitRead f k)).
Proof.
  intros [-> | ->]; unfold step; cbv zeta; rewrite uploader_id.
  - unfold handleFileChange.
    destruct (firstFile files) as [file |]; [| simpl; auto].
    destruct (size file >? 4 * 1024 * 1024)%Z; [simpl; auto |].
    simpl. split; [reflexivity |]. right. do 2 eexists.
    split; [reflexivity |]. exists s. split; [reflexivity |].
    intro ended. apply onImageUpload_uploader.
  - unfold handleDrop.
    destruct (firstFile files) as [file |]; [| simpl; auto].
    destruct (startsWith "image/" (type file)); [| simpl; auto].
    destruct (size file >? 4 * 1024 * 1024)%Z; [simpl; auto |].
    simpl. split; [reflexivity |]. right. do 2 eexists.
    split; [reflexivity |]. exists s. split; [reflexivity |].
    intro ended. apply onImageUpload_uploader.
Qed.

Lemma remove_step (s : Slot) (w : World) :
  step (RemoveClicked s) w = w
  \/ (pending (step (RemoveClicked s) w) = pending w
      /\ app (step (RemoveClicked s) w) = app (apply (slotSetter s None) w)).
Proof.
  unfold step. cbv zeta.
  destruct (imageFile (uploader s (app w))); [| left; reflexivity].
  right. unfold handleRemove. rewrite onImageUpload_uploader.
  destruct s; simpl; auto.
Qed.

Lemma slotSetter_frame (s : Slot) (image : option ImageFile) (w : World) :
  let w' := apply (slotSetter s image) w in
  pending w' = pending w
  /\ trace w' = trace w
  /\ prompt (app w') = prompt (app w)
  /\ generatedImage (app w') = generatedImage (app w)
  /\ isLoading (app w') = isLoading (app w)
  /\ error (app w') = error (app w)
  /\ selected (otherSlot s) (app w') = selected (otherSlot s) (app w).
Proof.
  destruct s; simpl; repeat split; reflexivity.
Qed.

Lemma invariant_same_flag (w w' : World) :
  invariant w ->
  pending w' = pending w ->
  isLoading (app w') = isLoading (app w) ->
  invariant w'.
Proof.
  intros (Hparked & Hcount) Hpending Hflag.
  unfold invariant, submissionsInFlight in *.
  rewrite Hpending, Hflag. auto.
Qed.

Lemma invariant_parks_read (w w' : World) (i : string) (t : Suspended) :
  invariant w ->
  pending w' = pending w ++ [(FromUploader i, t)] ->
  parkedOk (FromUploader i, t) ->
  isLoading (app w') = isLoading (app w) ->
  invariant w'.
Proof.
  intros (Hparked & Hcount) Hpending Hok Hflag.
  unfold invariant, submissionsInFlight in *.
  rewrite Hpending, Hflag, submissions_uploader. split; [| exact Hcount].
  apply Forall_app. split; [exact Hparked |]. constructor; [exact Hok | constructor].
Qed.

(** The end of a read or of a remote call keeps the invariant. *)
Lemma invariant_resume (w : World) (i : nat) (origin : Origin) (t : Suspended)
    (next : Proc unit) :
  invariant w ->
  nth_error (pending w) i = Some (origin, t) ->
  match origin, t with
  | FromUploader _, AwaitRead f k => exists ended, next = k ended
  | FromUploader _, AwaitRemote _ _ => True
  | FromGenerate, AwaitRead _ k => exists ended, next = k ended
  | FromGenerate, AwaitRemote _ k => exists ended, next = k ended
  end ->
  invariant (run origin next (unpark i w)).
Proof.
  intros (Hparked & Hcount) Hnth Hnext.
  pose proof (nth_error_Forall _ _ _ _ Hparked Hnth) as Hok.
  pose proof (removeNth_count isSubmission _ _ _ Hnth) as Hremoved.
  pose proof (removeNth_Forall parkedOk i _ Hparked) as Hrest.
  unfold submissionsInFlight in Hcount.
  destruct origin as [uid |].
  - destruct t as [f k | request k]; [| contradiction Hok].
    destruct Hok as (s & -> & Hk). destruct Hnext as (ended & ->).
    rewrite Hk. cbn [perform run].
    cbn [isSubmission fst] in Hremoved.
    apply (invariant_same_flag (unpark i w)).
    + split; [exact Hrest |].
      unfold submissionsInFlight. cbn [unpark pending app].
      rewrite <- Hcount, Hremoved. reflexivity.
    + apply slotSetter_frame.
    + apply slotSetter_frame.
  - cbn [isSubmission fst] in Hremoved.
    assert (Hflag : isLoading (app w) = true).
    { destruct (isLoading (app w)); [reflexivity | lia]. }
    rewrite Hflag in Hcount.
    assert (Hsettles : settles next true).
    { destruct t as [f k | request k]; destruct Hnext as (ended & ->);
        apply Hok. }
    apply (run_settles_invariant next true (unpark i w) Hsettles Hflag Hrest).
    unfold submissionsInFlight. cbn [unpark pending]. lia.
Qed.

Lemma invariant_step (e : Event) (w : World) :
  invariant w -> invariant (step e w).
Proof.
  intro Hinv.
  destruct e as [s files | s files | s | s | s | value | | i ended | i ended].
  - destruct (intake_step (FileChosen s files) s files w (or_introl eq_refl))
      as (Happ & [Hsame | (f & k & Hmore & Hok)]).
    + apply (invariant_same_flag w); [exact Hinv | exact Hsame | now rewrite Happ].
    + apply (invariant_parks_read w _ _ _ Hinv Hmore Hok). now rewrite Happ.
  - destruct (intake_step (FilesDropped s files) s files w (or_intror eq_refl))
      as (Happ & [Hsame | (f & k & Hmore & Hok)]).
    + apply (invariant_same_flag w); [exact Hinv | exact Hsame | now rewrite Happ].
    + apply (invariant_parks_read w _ _ _ Hinv Hmore Hok). now rewrite Happ.
  - apply (invariant_same_flag w); [exact Hinv | reflexivity | reflexivity].
  - apply (invariant_same_flag w); [exact Hinv | reflexivity | reflexivity].
  - destruct (remove_step s w) as [-> | (Hpending & Happ)]; [exact Hinv |].
    apply (invariant_same_flag w); [exact Hinv | exact Hpending |].
    rewrite Happ. apply slotSetter_frame.
  - apply (invariant_same_flag w); [exact Hinv | reflexivity | reflexivity].
  - unfold step.
    destruct (generateDisabled (app w)) eqn:Hdisabled; [exact Hinv |].
    unfold generateDisabled in Hdisabled.
    destruct (isLoading (app w)) eqn:Hflag; [discriminate Hdisabled |].
    destruct Hinv as (Hparked & Hcount). rewrite Hflag in Hcount.
    apply (run_settles_invariant _ false w (handleGenerate_settles _)
             Hflag Hparked Hcount).
  - unfold step.
    destruct (nth_error (pending w) i) as [[origin [f k | request k]] |] eqn:Hnth;
      try exact Hinv.
    apply (invariant_resume w i origin _ _ Hinv Hnth).
    destruct origin; exists ended; reflexivity.
  - unfold step.
    destruct (nth_error (pending w) i) as [[origin [f k | request k]] |] eqn:Hnth;
      try exact Hinv.
    apply (invariant_resume w i origin _ _ Hinv Hnth).
    destruct origin; [exact I | exists ended; reflexivity].
Qed.

Lemma reachable_invariant (w : World) : reachable w -> invariant w.
Proof.
  induction 1 as [| e w _ IH].
  - split; [constructor | reflexivity].
  - apply invariant_step. exact IH.
Qed.

(** Only submissions wait for the remote service. *)
Lemma remote_calls_are_submissions (l : list (Origin * Suspended)) :
  Forall parkedOk l ->
  length (filter isRemoteCall l) <= length (filter isSubmission l).
Proof.
  induction 1 as [| [origin t] l Hok _ IH]; simpl; [lia |].
  destruct origin, t; simpl in *; try contradiction; lia.
Qed.

Lemma reachable_steps (es : list Event) (w : World) :
  reachable w -> reachable (steps es w).
Proof.
  revert w. induction es as [| e es IH]; intros w Hw; simpl; [exact Hw |].
  apply IH. constructor. exact Hw.
Qed.

Lemma workflowState_Loading (st : AppState) :
  workflowState st = Loading <-> isLoading st = true.
Proof.
  unfold workflowState. destruct (isLoading st).
  - split; reflexivity.
  - destruct (shown (error st)); [| destruct (shown (generatedImage st))];
      split; discriminate.
Qed.

(** C7. In every state the page can reach, at most one submission is in
    flight and at most one remote call is outstanding; the page is
    Loading exactly while a submission is in flight, and while it is
    Loading a further click on the Generate button changes nothing: no
    state cell, no parked handler, no new read or remote call. *)
Theorem one_submission_at_a_time :
  forall w : World,
    reachable w ->
    submissionsInFlight w <= 1
    /\ remoteCallsInFlight w <= 1
    /\ (workflowState (app w) = Loading <-> submissionsInFlight w = 1)
    /\ (workflowState (app w) = Loading -> step GenerateClicked w = w).
Proof.
  intros w Hreach.
  destruct (reachable_invariant w Hreach) as (Hparked & Hcount).
  assert (Hone : submissionsInFlight w <= 1).
  { rewrite Hcount. destruct (isLoading (app w)); lia. }
  split; [exact Hone |]. split; [| split].
  - pose proof (remote_calls_are_submissions _ Hparked) as Hremote.
    unfold remoteCallsInFlight, submissionsInFlight in *. lia.
  - rewrite workflowState_Loading, Hcount.
    destruct (isLoading (app w)); split; congruence.
  - rewrite workflowState_Loading. intro Hflag.
    unfold step, generateDisabled. rewrite Hflag. reflexivity.
Qed.

Lemma one_submission_at_a_time_witness :
  submissionsInFlight Examples.submitted = 1
  /\ step GenerateClicked Examples.submitted = Examples.submitted.
Proof.
  pose proof (one_submission_at_a_time Examples.submitted
                (reachable_steps _ _ reachable_initial))
    as (_ & _ & Hloading & Hclick).
  split.
  - apply Hloading. reflexivity.
  - apply Hclick. reflexivity.
Defined.

(** C9. In every state the page can reach, removing an image, choosing
    or dropping a file, and the end of the read that stores the new
    selection leave the loading flag, the error message and the
    generated result as they were, so the workflow state shown stays
    what it was; they leave the instruction, the other image slot and
    the submissions in flight alone too.  Removing an image empties its
    slot. *)
Theorem image_events_keep_workflow_state :
  (forall (w : World) (e : Event),
      reachable w ->
      imageEvent e w = true ->
      let w' := step e w in
      isLoading (app w') = isLoading (app w)
      /\ error (app w') = error (app w)
      /\ generatedImage (app w') = generatedImage (app w)
      /\ workflowState (app w') = workflowState (app w)
      /\ prompt (app w') = prompt (app w)
      /\ submissionsInFlight w' = submissionsInFlight w
      /\ exists s : Slot,
           eventSlot e w = Some s
           /\ selected (otherSlot s) (app w') = selected (otherSlot s) (app w))
  /\ (forall (w : World) (s : Slot),
         selected s (app (step (RemoveClicked s) w)) = None).
Proof.
  assert (Hcells : forall st' st : AppState,
             isLoading st' = isLoading st ->
             error st' = error st ->
             generatedImage st' = generatedImage st ->
             workflowState st' = workflowState st).
  { intros st' st H1 H2 H3. unfold workflowState. rewrite H1, H2, H3. reflexivity. }
  assert (Hsame : forall (w' w : World) (s : Slot),
             app w' = app w ->
             submissionsInFlight w' = submissionsInFlight w ->
             isLoading (app w') = isLoading (app w)
             /\ error (app w') = error (app w)
             /\ generatedImage (app w') = generatedImage (app w)
             /\ workflowState (app w') = workflowState (app w)
             /\ prompt (app w') = prompt (app w)
             /\ submissionsInFlight w' = submissionsInFlight w
             /\ selected (otherSlot s) (app w') = selected (otherSlot s) (app w)).
  { intros w' w s Happ Hsub. rewrite Happ. repeat split; auto. }
  assert (Hset : forall (w' w : World) (s : Slot) (image : option ImageFile),
             app w' = app (apply (slotSetter s image) w) ->
             submissionsInFlight w' = submissionsInFlight w ->
             isLoading (app w') = isLoading (app w)
             /\ error (app w') = error (app w)
             /\ generatedImage (app w') = generatedImage (app w)
             /\ workflowState (app w') = workflowState (app w)
             /\ prompt (app w') = prompt (app w)
             /\ submissionsInFlight w' = submissionsInFlight w
             /\ selected (otherSlot s) (app w') = selected (otherSlot s) (app w)).
  { intros w' w s image Happ Hsub. rewrite Happ.
    destruct (slotSetter_frame s image w) as (_ & _ & Hp & Hg & Hl & He & Ho).
    repeat split; auto. }
  assert (Hintake : forall (w : World) (e : Event) (s : Slot) files,
             e = FileChosen s files \/ e = FilesDropped s files ->
             app (step e w) = app w
             /\ submissionsInFlight (step e w) = submissionsInFlight w).
  { intros w e s files He.
    destruct (intake_step e s files w He) as (Happ & [Hp | (f & k & Hp & _)]);
      split; try exact Happ; unfold submissionsInFlight; rewrite Hp;
      [reflexivity | apply submissions_uploader]. }
  split.
  - intros w e Hreach Hevent w'. subst w'.
    destruct e as [s files | s files | s | s | s | value | | i ended | i ended];
      try discriminate Hevent.
    + destruct (Hintake w _ s files (or_introl eq_refl)) as (Happ & Hsub).
      destruct (Hsame _ w s Happ Hsub) as (H1 & H2 & H3 & H4 & H5 & H6 & H7).
      repeat split; auto. exists s. auto.
    + destruct (Hintake w _ s files (or_intror eq_refl)) as (Happ & Hsub).
      destruct (Hsame _ w s Happ Hsub) as (H1 & H2 & H3 & H4 & H5 & H6 & H7).
      repeat split; auto. exists s. auto.
    + destruct (remove_step s w) as [Hnoop | (Hp & Happ)].
      * rewrite Hnoop. repeat split; auto. exists s. auto.
      * assert (Hsub : submissionsInFlight (step (RemoveClicked s) w) =
                       submissionsInFlight w).
        { unfold submissionsInFlight. rewrite Hp. reflexivity. }
        destruct (Hset _ w s None Happ Hsub) as (H1 & H2 & H3 & H4 & H5 & H6 & H7).
        repeat split; auto. exists s. auto.
    + destruct (reachable_invariant w Hreach) as (Hparked & _).
      unfold imageEvent in Hevent. unfold eventSlot, step.
      destruct (nth_error (pending w) i) as [[[uid |] t] |] eqn:Hnth;
        try discriminate Hevent.
      pose proof (nth_error_Forall _ _ _ _ Hparked Hnth) as Hok.
      destruct t as [f k | request k]; [| contradiction Hok].
      destruct Hok as (s & -> & Hk). rewrite Hk. cbn [perform run].
      assert (Hsub : submissionsInFlight
                       (apply (slotSetter s (Some (mkImageFile f (readerResult ended))))
                          (unpark i w)) =
                     submissionsInFlight w).
      { pose proof (removeNth_count isSubmission _ _ _ Hnth) as Hremoved.
        cbn [isSubmission fst] in Hremoved.
        unfold submissionsInFlight.
        destruct (slotSetter_frame s (Some (mkImageFile f (readerResult ended)))
                    (unpark i w)) as (Hp & _).
        rewrite Hp. cbn [unpark pending]. lia. }
      destruct (Hset (apply (slotSetter s (Some (mkImageFile f (readerResult ended))))
                        (unpark i w))
                     w s (Some (mkImageFile f (readerResult ended))))
        as (H1 & H2 & H3 & H4 & H5 & H6 & H7);
        [destruct s; reflexivity | exact Hsub |].
      repeat split; auto. exists s. split; [destruct s; reflexivity | exact H7].
  - intros w s. unfold step. cbv zeta.
    destruct (imageFile (uploader s (app w))) eqn:Himage; [| exact Himage].
    unfold handleRemove. rewrite onImageUpload_uploader.
    destruct s; reflexivity.
Qed.

Lemma image_events_keep_workflow_state_witness :
  workflowState (app (step (RemoveClicked BaseSlot) Examples.submitted)) =
    workflowState (app Examples.submitted)
  /\ selected BaseSlot (app (step (RemoveClicked BaseSlot) Examples.submitted)) =
     None.
Proof.
  split.
  - apply (proj1 image_events_keep_workflow_state Examples.submitted
             (RemoveClicked BaseSlot)
             (reachable_steps _ _ reachable_initial) eq_refl).
  - apply (proj2 image_events_keep_workflow_state).
Defined.

(* ================================================================== *)
(** * Further properties of the code *)
(* ================================================================== *)

(** ** The Edit Request Client, continued *)

(** A run of [generateEditedImage] either resolves, having only sent
    the request, or rejects with a string, having also logged the
    caught value once. *)
Lemma generateEditedImage_cases (env : Env)
    (params : GeminiService.GenerateImageParams) (w : World) :
  let sent := observe (SawRequest (editRequest params)) w in
  (exists uri : string,
      exec env (GeminiService.generateEditedImage params) w =
        (Resolved uri, sent))
  \/ (exists (thrown : JsValue) (reason : string),
         exec env (GeminiService.generateEditedImage params) w =
           (Rejected (JsStr reason),
            observe (SawConsoleError "Error generating image with Gemini:" thrown)
              sent)).
Proof.
  rewrite generateEditedImage_exec. cbv zeta.
  destruct (generateContent env (editRequest params)) as [response | thrown].
  - destruct (parts_scan (GeminiService.responseParts response))
      as [Hnone | (before & part & rest & inline & Hsplit & Hb & Hi)].
    + rewrite (forOfParts_none _ _ Hnone). right. do 2 eexists. reflexivity.
    + rewrite Hsplit, (forOfParts_first _ _ _ _ _ Hb Hi).
      left. eexists. reflexivity.
  - right. destruct thrown; do 2 eexists; reflexivity.
Qed.

Lemma consoleErrorsOf_app (tr1 tr2 : list Observation) :
  consoleErrorsOf (tr1 ++ tr2) = consoleErrorsOf tr1 ++ consoleErrorsOf tr2.
Proof.
  induction tr1 as [| o tr1 IH]; simpl; [reflexivity |].
  destruct o; simpl; rewrite IH; reflexivity.
Qed.

(** X13. [generateEditedImage] keeps no state of its own and touches
    none of the page's: a run leaves the React state, the file inputs
    and the parked handlers as they were, reads no file and raises no
    alert.  It calls [console.error] exactly once when it rejects and
    not at all when it resolves. *)
Theorem generateEditedImage_is_stateless :
  forall (env : Env) (params : GeminiService.GenerateImageParams) (w : World),
    let outcome := fst (exec env (GeminiService.generateEditedImage params) w) in
    let w' := snd (exec env (GeminiService.generateEditedImage params) w) in
    app w' = app w
    /\ inputs w' = inputs w
    /\ pending w' = pending w
    /\ readsOf (trace w') = readsOf (trace w)
    /\ alertsOf (trace w') = alertsOf (trace w)
    /\ match outcome with
       | Resolved _ =>
           consoleErrorsOf (trace w') = consoleErrorsOf (trace w)
       | Rejected _ =>
           exists thrown,
             consoleErrorsOf (trace w') =
             consoleErrorsOf (trace w)
               ++ [("Error generating image with Gemini:", thrown)]
       end.
Proof.
  intros env params w.
  destruct (generateEditedImage_cases env params w)
    as [(uri & Hrun) | (thrown & reason & Hrun)]; cbv zeta; rewrite Hrun; simpl;
    rewrite ?readsOf_app, ?alertsOf_app, ?consoleErrorsOf_app; simpl;
    rewrite ?app_nil_r; repeat split; try reflexivity.
  exists thrown. reflexivity.
Qed.

(** X12. Only the parts of the first candidate count.  When the
    response has no candidates, an empty candidate list, a first
    candidate without content, content without parts, or first-candidate
    parts none of which is inline, [generateEditedImage] rejects with the
    no-image message, whatever the later candidates hold. *)
Theorem generateEditedImage_reads_first_candidate_only :
  forall (env : Env) (params : GeminiService.GenerateImageParams) (w : World)
         (response : GenerateContentResponse),
    generateContent env (editRequest params) = RemoteOk response ->
    candidates response = None
    \/ candidates response = Some []
    \/ (exists (first : Candidate) (others : list Candidate),
           candidates response = Some (first :: others)
           /\ (content first = None
               \/ content first = Some (mkContent None)
               \/ exists ps,
                    content first = Some (mkContent (Some ps))
                    /\ Forall (fun p => inlineData p = None) ps)) ->
    fst (exec env (GeminiService.generateEditedImage params) w) =
      Rejected (JsStr "No image was generated in the response.").
Proof.
  intros env params w response Hanswer Hshape.
  assert (Hnone : Forall (fun p => inlineData p = None)
                         (GeminiService.responseParts response)).
  { unfold GeminiService.responseParts.
    destruct Hshape as [-> | [-> | (first & others & -> & Hfirst)]];
      try constructor.
    destruct Hfirst as [-> | [-> | (ps & -> & Hps)]];
      [constructor | constructor | exact Hps]. }
  rewrite generateEditedImage_exec. cbv zeta.
  rewrite Hanswer, (forOfParts_none _ _ Hnone). reflexivity.
Qed.

(** ** The Session Controller, continued *)

(** One run of [handleGenerate] whose first read fails, and one whose
    second read fails. *)
Lemma handleGenerate_exec_base_unreadable (env : Env) (w : World)
    (base logo : ImageFile) :
  baseImage (app w) = Some base ->
  logoImage (app w) = Some logo ->
  truthy (prompt (app w)) = true ->
  readAsDataURL env (file base) = ReadFailed ->
  exec env (handleGenerate (app w)) w =
  (Resolved tt,
   apply (SetIsLoading false)
     (apply (SetError (Some "[object ProgressEvent]"))
        (observe (SawRead (file base))
           (apply (SetGeneratedImage None)
              (apply (SetError None) (apply (SetIsLoading true) w)))))).
Proof.
  intros Hbase Hlogo Hprompt Hread.
  unfold handleGenerate. rewrite Hbase, Hlogo, Hprompt.
  cbn [bind perform exec].
  rewrite exec_tryFinally, exec_tryCatch.
  unfold fileToBase64. cbn [bind exec]. rewrite Hread. reflexivity.
Qed.

Lemma handleGenerate_exec_logo_unreadable (env : Env) (w : World)
    (base logo : ImageFile) (baseURL : string) :
  baseImage (app w) = Some base ->
  logoImage (app w) = Some logo ->
  truthy (prompt (app w)) = true ->
  readAsDataURL env (file base) = Loaded baseURL ->
  readAsDataURL env (file logo) = ReadFailed ->
  exec env (handleGenerate (app w)) w =
  (Resolved tt,
   apply (SetIsLoading false)
     (apply (SetError (Some "[object ProgressEvent]"))
        (observe (SawRead (file logo))
           (observe (SawRead (file base))
              (apply (SetGeneratedImage None)
                 (apply (SetError None) (apply (SetIsLoading true) w))))))).
Proof.
  intros Hbase Hlogo Hprompt HreadBase HreadLogo.
  unfold handleGenerate. rewrite Hbase, Hlogo, Hprompt.
  cbn [bind perform exec].
  rewrite exec_tryFinally, exec_tryCatch.
  unfold fileToBase64. cbn [bind exec].
  rewrite HreadBase. cbn [bind exec]. rewrite HreadLogo. reflexivity.
Qed.

Lemma truthy_data_uri (tail : string) : truthy ("data:" ++ tail) = true.
Proof. reflexivity. Qed.

(** X1. A submission whose two reads succeed and whose response holds
    an inline image ends Succeeded: [generatedImage] is the data URI of
    the first inline part, [error] is null and the loading flag is
    down. *)
Theorem submission_succeeds :
  forall (env : Env) (w : World) (base logo : ImageFile)
         (baseURL logoURL : string) (response : GenerateContentResponse)
         (first : Candidate) (others : list Candidate) (c : Content)
         (before rest : list Part) (part : Part) (inline : Blob),
    baseImage (app w) = Some base ->
    logoImage (app w) = Some logo ->
    prompt (app w) <> "" ->
    readAsDataURL env (file base) = Loaded baseURL ->
    readAsDataURL env (file logo) = Loaded logoURL ->
    generateContent env
      (editRequest (paramsAfterReads (app w) base logo baseURL logoURL)) =
      RemoteOk response ->
    candidates response = Some (first :: others) ->
    content first = Some c ->
    parts c = Some (before ++ part :: rest) ->
    Forall (fun p => inlineData p = None) before ->
    inlineData part = Some inline ->
    let uri := ("data:" ++ templ (mimeType inline)
                ++ ";base64," ++ templ (data inline))%string in
    let after := app (snd (exec env (handleGenerate (app w)) w)) in
    generatedImage after = Some uri
    /\ error after = None
    /\ isLoading after = false
    /\ workflowState after = Succeeded uri.
Proof.
  intros env w base logo baseURL logoURL response first others c
         before rest part inline
         Hbase Hlogo Hprompt HreadBase HreadLogo Hanswer
         Hcandidates Hcontent Hparts Hb Hi uri after.
  assert (Hsplit : GeminiService.responseParts response = before ++ part :: rest).
  { unfold GeminiService.responseParts.
    rewrite Hcandidates, Hcontent, Hparts. reflexivity. }
  subst after.
  rewrite (handleGenerate_exec env w base logo baseURL logoURL
             Hbase Hlogo (truthy_nonempty _ Hprompt) HreadBase HreadLogo).
  cbv zeta. rewrite generateEditedImage_exec. cbv zeta.
  rewrite Hanswer, Hsplit, (forOfParts_first _ _ _ _ _ Hb Hi).
  cbn. repeat split; reflexivity.
Qed.

(** X2. A submission one of whose reads fails ends Failed with the text
    of the [ProgressEvent], [[object ProgressEvent]], and never calls
    the remote service; when the base image is the one that cannot be
    read, the logo is not read at all. *)
Theorem submission_with_unreadable_file :
  forall (env : Env) (w : World) (base logo : ImageFile),
    baseImage (app w) = Some base ->
    logoImage (app w) = Some logo ->
    prompt (app w) <> "" ->
    let final := snd (exec env (handleGenerate (app w)) w) in
    (readAsDataURL env (file base) = ReadFailed ->
     error (app final) = Some "[object ProgressEvent]"
     /\ isLoading (app final) = false
     /\ generatedImage (app final) = None
     /\ workflowState (app final) = Failed "[object ProgressEvent]"
     /\ requestsOf (trace final) = requestsOf (trace w)
     /\ readsOf (trace final) = readsOf (trace w) ++ [file base])
    /\ (forall baseURL : string,
           readAsDataURL env (file base) = Loaded baseURL ->
           readAsDataURL env (file logo) = ReadFailed ->
           error (app final) = Some "[object ProgressEvent]"
           /\ isLoading (app final) = false
           /\ generatedImage (app final) = None
           /\ workflowState (app final) = Failed "[object ProgressEvent]"
           /\ requestsOf (trace final) = requestsOf (trace w)
           /\ readsOf (trace final) = readsOf (trace w) ++ [file base; file logo]).
Proof.
  intros env w base logo Hbase Hlogo Hprompt final. subst final.
  pose proof (truthy_nonempty _ Hprompt) as Htruthy.
  split.
  - intro Hread.
    rewrite (handleGenerate_exec_base_unreadable env w base logo
               Hbase Hlogo Htruthy Hread).
    cbn. rewrite requestsOf_app, readsOf_app. simpl.
    rewrite app_nil_r. repeat split; reflexivity.
  - intros baseURL HreadBase HreadLogo.
    rewrite (handleGenerate_exec_logo_unreadable env w base logo baseURL
               Hbase Hlogo Htruthy HreadBase HreadLogo).
    cbn. rewrite !requestsOf_app, !readsOf_app. simpl.
    rewrite !app_nil_r, <- app_assoc. repeat split; reflexivity.
Qed.

(** X4. With its inputs present [handleGenerate] always settles,
    whatever the reads and the remote service do: its promise resolves
    (nothing escapes its [catch]), the loading flag ends down, exactly
    one of [generatedImage] and [error] ends non-null, at most one
    remote call is made, and the image slots, the instruction, the file
    inputs and the parked handlers are left as they were. *)
Theorem submission_always_settles :
  forall (env : Env) (w : World) (base logo : ImageFile),
    baseImage (app w) = Some base ->
    logoImage (app w) = Some logo ->
    prompt (app w) <> "" ->
    let final := snd (exec env (handleGenerate (app w)) w) in
    fst (exec env (handleGenerate (app w)) w) = Resolved tt
    /\ isLoading (app final) = false
    /\ ((exists uri, generatedImage (app final) = Some uri
                     /\ error (app final) = None)
        \/ (exists message, error (app final) = Some message
                            /\ generatedImage (app final) = None))
    /\ (requestsOf (trace final) = requestsOf (trace w)
        \/ exists request,
             requestsOf (trace final) = requestsOf (trace w) ++ [request])
    /\ baseImage (app final) = baseImage (app w)
    /\ logoImage (app final) = logoImage (app w)
    /\ prompt (app final) = prompt (app w)
    /\ inputs final = inputs w
    /\ pending final = pending w.
Proof.
  intros env w base logo Hbase Hlogo Hprompt final. subst final.
  pose proof (truthy_nonempty _ Hprompt) as Htruthy.
  destruct (readAsDataURL env (file base)) as [baseURL |] eqn:HreadBase.
  - destruct (readAsDataURL env (file logo)) as [logoURL |] eqn:HreadLogo.
    + rewrite (handleGenerate_exec env w base logo baseURL logoURL
                 Hbase Hlogo Htruthy HreadBase HreadLogo).
      cbv zeta.
      destruct (generateEditedImage_cases env
                  (paramsAfterReads (app w) base logo baseURL logoURL)
                  (observe (SawRead (file logo))
                     (observe (SawRead (file base))
                        (apply (SetGeneratedImage None)
                           (apply (SetError None)
                              (apply (SetIsLoading true) w))))))
        as [(uri & Hrun) | (thrown & reason & Hrun)];
        cbv zeta in Hrun; rewrite Hrun; cbn;
        rewrite !requestsOf_app; simpl; rewrite !app_nil_r.
      * repeat split; eauto.
      * repeat split; eauto.
    + rewrite (handleGenerate_exec_logo_unreadable env w base logo baseURL
                 Hbase Hlogo Htruthy HreadBase HreadLogo).
      cbn. rewrite !requestsOf_app. simpl. rewrite !app_nil_r.
      repeat split; eauto.
  - rewrite (handleGenerate_exec_base_unreadable env w base logo
               Hbase Hlogo Htruthy HreadBase).
    cbn. rewrite !requestsOf_app. simpl. rewrite !app_nil_r.
    repeat split; eauto.
Qed.

(** X5. A submission whose two reads succeed reads the base file, then
    the logo file, and sends one request made of what it read: the text
    after the first comma of each data URL with the file's own declared
    type, base first, logo second, then the instruction. *)
Theorem submission_sends_what_it_read :
  forall (env : Env) (w : World) (base logo : ImageFile)
         (baseURL logoURL : string),
    baseImage (app w) = Some base ->
    logoImage (app w) = Some logo ->
    prompt (app w) <> "" ->
    readAsDataURL env (file base) = Loaded baseURL ->
    readAsDataURL env (file logo) = Loaded logoURL ->
    let final := snd (exec env (handleGenerate (app w)) w) in
    readsOf (trace final) = readsOf (trace w) ++ [file base; file logo]
    /\ exists request,
         requestsOf (trace final) = requestsOf (trace w) ++ [request]
         /\ parts (contents request) =
            Some [ mkPart (Some (mkBlob (nth_error (split "," baseURL) 1)
                                        (Some (type (file base))))) None;
                   mkPart (Some (mkBlob (nth_error (split "," logoURL) 1)
                                        (Some (type (file logo))))) None;
                   mkPart None (Some (prompt (app w))) ].
Proof.
  intros env w base logo baseURL logoURL
         Hbase Hlogo Hprompt HreadBase HreadLogo final.
  subst final.
  rewrite (handleGenerate_exec env w base logo baseURL logoURL
             Hbase Hlogo (truthy_nonempty _ Hprompt) HreadBase HreadLogo).
  cbv zeta.
  match goal with
  | |- context [exec env (GeminiService.generateEditedImage ?p) ?w0] =>
      destruct (generateEditedImage_cases env p w0)
        as [(uri & Hrun) | (thrown & reason & Hrun)]
  end; cbv zeta in Hrun; rewrite Hrun; cbn;
    rewrite !readsOf_app, !requestsOf_app; simpl;
    rewrite !app_nil_r, <- !app_assoc; simpl;
    (split; [reflexivity | eexists; split; reflexivity]).
Qed.

(** X11. When the remote call fails after two successful reads, the
    controller ends with the loading flag down, no result, and as error
    the message of the thrown [Error], or the fixed unknown-error text
    for any thrown value that is not an [Error] (a rejected string is
    not shown); the thrown value itself is logged once. *)
Theorem submission_remote_failure :
  forall (env : Env) (w : World) (base logo : ImageFile)
         (baseURL logoURL : string) (thrown : JsValue),
    baseImage (app w) = Some base ->
    logoImage (app w) = Some logo ->
    prompt (app w) <> "" ->
    readAsDataURL env (file base) = Loaded baseURL ->
    readAsDataURL env (file logo) = Loaded logoURL ->
    generateContent env
      (editRequest (paramsAfterReads (app w) base logo baseURL logoURL)) =
      RemoteFailed thrown ->
    let final := snd (exec env (handleGenerate (app w)) w) in
    error (app final) =
      Some match thrown with
           | JsErr _ message => message
           | _ => "An unknown error occurred while generating the image."
           end
    /\ isLoading (app final) = false
    /\ generatedImage (app final) = None
    /\ consoleErrorsOf (trace final) =
       consoleErrorsOf (trace w)
         ++ [("Error generating image with Gemini:", thrown)]
    /\ (showsError (app final) = false <-> exists name, thrown = JsErr name "")
    /\ (showsError (app final) = false -> showsPlaceholder (app final) = true).
Proof.
  intros env w base logo baseURL logoURL thrown
         Hbase Hlogo Hprompt HreadBase HreadLogo Hanswer final.
  subst final.
  rewrite (handleGenerate_exec env w base logo baseURL logoURL
             Hbase Hlogo (truthy_nonempty _ Hprompt) HreadBase HreadLogo).
  cbv zeta. rewrite generateEditedImage_exec. cbv zeta. rewrite Hanswer.
  destruct thrown as [| | s | name message | tag]; cbn;
    rewrite !consoleErrorsOf_app; simpl; rewrite ?app_nil_r;
    unfold showsError, showsPlaceholder; cbn;
    repeat split; try reflexivity; try discriminate;
    try (intros (name' & Hname); discriminate Hname).
  - unfold truthy. destruct (String.eqb_spec message ""); [| discriminate].
    intros _. exists name. congruence.
  - intros (name' & Hname). injection Hname as _ ->. reflexivity.
  - intros ->. reflexivity.
Qed.

(** ** The Binary Encoder *)

Lemma split_without_separator (sep : ascii) (s : string) :
  occurs sep s = false -> split sep s = [s].
Proof.
  induction s as [| c s IH]; simpl; [reflexivity |].
  intro H. apply orb_false_elim in H. destruct H as (Hc & Hs).
  rewrite Hc, (IH Hs). reflexivity.
Qed.

Lemma split_at_first_separator (sep : ascii) (head rest : string) :
  occurs sep head = false ->
  split sep (head ++ String sep rest) = head :: split sep rest.
Proof.
  induction head as [| c head IH]; simpl.
  - intros _. rewrite Ascii.eqb_refl. reflexivity.
  - intro H. apply orb_false_elim in H. destruct H as (Hc & Hhead).
    rewrite Hc, (IH Hhead). reflexivity.
Qed.

Lemma occurs_append (c : ascii) (s t : string) :
  occurs c (s ++ t) = occurs c s || occurs c t.
Proof.
  induction s as [| c' s IH]; simpl; [reflexivity |].
  rewrite IH, orb_assoc. reflexivity.
Qed.

Lemma append_associative (s t u : string) :
  ((s ++ t) ++ u = s ++ (t ++ u))%string.
Proof.
  induction s as [| c s IH]; simpl; [reflexivity |].
  rewrite IH. reflexivity.
Qed.

Lemma split_data_uri (mediaType content : string) :
  occurs "," mediaType = false ->
  split "," (dataURI mediaType content) =
  ("data:" ++ mediaType ++ ";base64")%string :: split "," content.
Proof.
  intro Hm.
  assert (Hshape : dataURI mediaType content =
                   (("data:" ++ mediaType ++ ";base64") ++ String "," content)%string).
  { rewrite !append_associative. reflexivity. }
  rewrite Hshape. apply split_at_first_separator.
  rewrite !occurs_append, Hm. reflexivity.
Qed.

(** X3. [fileToBase64] undoes the data-URI format: when the read loads
    [data:<mediaType>;base64,<content>] with no comma in the media type
    or the content, it resolves to that content, paired with the file's
    own declared type (not the media type of the URL).  A loaded text
    without any comma gives an undefined payload; a failed read rejects
    with the [ProgressEvent].  In each case the file is read once. *)
Theorem fileToBase64_decodes_data_uri :
  forall (env : Env) (f : File) (w : World),
    (forall mediaType content : string,
        readAsDataURL env f = Loaded (dataURI mediaType content) ->
        occurs "," mediaType = false ->
        occurs "," content = false ->
        fst (exec env (fileToBase64 f) w) =
          Resolved (GeminiService.mkEncodedImage (Some content) (type f)))
    /\ (forall result : string,
           readAsDataURL env f = Loaded result ->
           occurs "," result = false ->
           fst (exec env (fileToBase64 f) w) =
             Resolved (GeminiService.mkEncodedImage None (type f)))
    /\ (readAsDataURL env f = ReadFailed ->
        fst (exec env (fileToBase64 f) w) = Rejected (JsObj "ProgressEvent"))
    /\ readsOf (trace (snd (exec env (fileToBase64 f) w))) =
       readsOf (trace w) ++ [f].
Proof.
  intros env f w. unfold fileToBase64. cbn [exec].
  split; [| split; [| split]].
  - intros mediaType content Hread Hm Hc. rewrite Hread. cbn [exec fst].
    rewrite (split_data_uri _ _ Hm), (split_without_separator _ _ Hc).
    reflexivity.
  - intros result Hread Hnone. rewrite Hread. cbn [exec fst].
    rewrite (split_without_separator _ _ Hnone). reflexivity.
  - intros ->. reflexivity.
  - destruct (readAsDataURL env f); cbn; rewrite readsOf_app; reflexivity.
Qed.

(** ** Image Intake, continued *)

(** A file within the limit chosen in the dialog: the input takes its
    value and the read is parked, its end storing the selection. *)
Lemma step_FileChosen_accepts (s : Slot) (files : option (list File)) (f : File)
    (w : World) :
  firstFile files = Some f ->
  (size f <= 4 * 1024 * 1024)%Z ->
  step (FileChosen s files) w =
  suspend
    (FromUploader (slotId s),
     AwaitRead f (fun ended =>
       perform (slotSetter s (Some (mkImageFile f (readerResult ended))))))
    (observe (SawRead f) (setInput (slotId s) (chosenValue files) w)).
Proof.
  intros Hfirst Hsize. unfold step. cbv zeta.
  rewrite (handleFileChange_accepts _ _ _ Hfirst Hsize).
  destruct s; reflexivity.
Qed.

Lemma step_read_stores (s : Slot) (f : File) (ended : ReadOutcome)
    (seen : Observation) (w : World) :
  step (ReadEnded (length (pending w)) ended)
       (suspend
          (FromUploader (slotId s),
           AwaitRead f (fun ended =>
             perform (slotSetter s (Some (mkImageFile f (readerResult ended))))))
          (observe seen w)) =
  apply (slotSetter s (Some (mkImageFile f (readerResult ended))))
        (observe seen w).
Proof.
  rewrite resume_last_read. reflexivity.
Qed.

(** X6. The file-dialog handler tests the size only: a chosen file
    within 4 MiB, whatever its declared type, is read once without an
    alert, and the end of the read stores it in the slot with
    [reader.result] as preview.  A read that fails still stores the
    file, with a null preview. *)
Theorem picker_accepts_any_type :
  forall (s : Slot) (f : File) (others : list File) (w : World)
         (ended : ReadOutcome),
    (size f <= 4 * 1024 * 1024)%Z ->
    let chosen := step (FileChosen s (Some (f :: others))) w in
    let stored := step (ReadEnded (length (pending w)) ended) chosen in
    app chosen = app w
    /\ readsOf (trace chosen) = readsOf (trace w) ++ [f]
    /\ alertsOf (trace chosen) = alertsOf (trace w)
    /\ selected s (app stored) = Some (mkImageFile f (readerResult ended))
    /\ pending stored = pending w
    /\ selected s
         (app (step (ReadEnded (length (pending w)) ReadFailed) chosen)) =
       Some (mkImageFile f None).
Proof.
  intros s f others w ended Hsize chosen stored.
  subst stored chosen.
  rewrite (step_FileChosen_accepts s (Some (f :: others)) f w eq_refl Hsize).
  pose proof (step_read_stores s f ended (SawRead f)
                (setInput (slotId s) (chosenValue (Some (f :: others))) w))
    as Hended.
  pose proof (step_read_stores s f ReadFailed (SawRead f)
                (setInput (slotId s) (chosenValue (Some (f :: others))) w))
    as Hfailed.
  cbn [setInput pending] in Hended, Hfailed.
  rewrite Hended, Hfailed.
  repeat split.
  - simpl. rewrite readsOf_app. reflexivity.
  - simpl. rewrite alertsOf_app. simpl. rewrite app_nil_r. reflexivity.
  - apply selected_slotSetter.
  - destruct s; reflexivity.
  - apply selected_slotSetter.
Qed.

(** X7. Both intake handlers look at the first file only.  With no
    file (a null or empty list) the dialog handler does nothing and the
    drop handler only cancels the browser's default action; with
    several files either handler behaves as if the first had come
    alone. *)
Theorem intake_considers_first_file_only :
  (forall (s : Slot) (files : option (list File)) (w : World),
      files = None \/ files = Some [] ->
      app (step (FileChosen s files) w) = app w
      /\ pending (step (FileChosen s files) w) = pending w
      /\ trace (step (FileChosen s files) w) = trace w
      /\ app (step (FilesDropped s files) w) = app w
      /\ pending (step (FilesDropped s files) w) = pending w
      /\ inputs (step (FilesDropped s files) w) = inputs w
      /\ trace (step (FilesDropped s files) w) =
         trace w ++ [SawPreventDefault; SawStopPropagation])
  /\ (forall (s : Slot) (f : File) (others : list File) (w : World),
         step (FileChosen s (Some (f :: others))) w =
           step (FileChosen s (Some [f])) w
         /\ step (FilesDropped s (Some (f :: others))) w =
            step (FilesDropped s (Some [f])) w).
Proof.
  split.
  - intros s files w [-> | ->]; unfold step, handleFileChange, handleDrop;
      cbv zeta; simpl; rewrite <- app_assoc; repeat split.
  - intros s f others w. split; reflexivity.
Qed.

(** X8. Selecting a file into an empty slot and then removing it
    brings the React state and the parked handlers back to what they
    were and leaves the slot's file input empty, so that the same file
    can be chosen again; the removal stops the click from reaching the
    upload zone, whose handler would open the file dialog. *)
Theorem select_then_remove_restores :
  forall (s : Slot) (f : File) (others : list File) (w : World)
         (ended : ReadOutcome),
    (size f <= 4 * 1024 * 1024)%Z ->
    selected s (app w) = None ->
    let removed :=
      step (RemoveClicked s)
        (step (ReadEnded (length (pending w)) ended)
           (step (FileChosen s (Some (f :: others))) w)) in
    app removed = app w
    /\ pending removed = pending w
    /\ inputs removed (slotId s) = ""
    /\ (forall i, i <> slotId s -> inputs removed i = inputs w i)
    /\ trace removed = trace w ++ [SawRead f; SawStopPropagation].
Proof.
  intros s f others w ended Hsize Hempty removed. subst removed.
  rewrite (step_FileChosen_accepts s (Some (f :: others)) f w eq_refl Hsize).
  pose proof (step_read_stores s f ended (SawRead f)
                (setInput (slotId s) (chosenValue (Some (f :: others))) w))
    as Hended.
  cbn [setInput pending] in Hended. rewrite Hended. clear Hended.
  destruct w as [[base logo instruction result flag err] ins parked tr].
  destruct s; unfold selected, uploader in Hempty; simpl in Hempty;
    subst; simpl.
  - rewrite <- app_assoc.
    split; [reflexivity | split; [reflexivity | split; [reflexivity |]]].
    split; [| reflexivity].
    intros i Hi. change (slotId BaseSlot) with "base-image" in *.
    apply String.eqb_neq in Hi. rewrite !Hi. reflexivity.
  - rewrite <- app_assoc.
    split; [reflexivity | split; [reflexivity | split; [reflexivity |]]].
    split; [| reflexivity].
    intros i Hi. change (slotId LogoSlot) with "logo-image" in *.
    apply String.eqb_neq in Hi. rewrite !Hi. reflexivity.
Qed.

Lemma nth_error_last_but_one {A : Type} (l : list A) (x y : A) :
  nth_error ((l ++ [x]) ++ [y]) (length l) = Some x.
Proof.
  induction l as [| z l IH]; simpl; auto.
Qed.

Lemma removeNth_last_but_one {A : Type} (l : list A) (x y : A) :
  removeNth (length l) ((l ++ [x]) ++ [y]) = l ++ [y].
Proof.
  induction l as [| z l IH]; simpl; [reflexivity |].
  rewrite IH. reflexivity.
Qed.

Lemma nth_error_very_last {A : Type} (l : list A) (x y : A) :
  nth_error ((l ++ [x]) ++ [y]) (S (length l)) = Some y.
Proof.
  induction l as [| z l IH]; simpl; auto.
Qed.

Lemma removeNth_very_last {A : Type} (l : list A) (x y : A) :
  removeNth (S (length l)) ((l ++ [x]) ++ [y]) = l ++ [x].
Proof.
  induction l as [| z l IH]; simpl; [reflexivity |].
  simpl in IH. rewrite IH. reflexivity.
Qed.

(** X9. Reads are never cancelled, and each stores its file when it
    ends: after two choices for the same slot the selection is the
    file whose read ended last, which is the older choice when the
    newer read ends first. *)
Theorem selection_follows_last_read_to_end :
  forall (s : Slot) (older newer : File) (w : World)
         (olderEnd newerEnd : ReadOutcome),
    (size older <= 4 * 1024 * 1024)%Z ->
    (size newer <= 4 * 1024 * 1024)%Z ->
    let n := length (pending w) in
    let both := step (FileChosen s (Some [newer]))
                  (step (FileChosen s (Some [older])) w) in
    selected s (app (step (ReadEnded n olderEnd)
                       (step (ReadEnded (S n) newerEnd) both))) =
      Some (mkImageFile older (readerResult olderEnd))
    /\ selected s (app (step (ReadEnded n newerEnd)
                          (step (ReadEnded n olderEnd) both))) =
       Some (mkImageFile newer (readerResult newerEnd)).
Proof.
  intros s older newer w olderEnd newerEnd Holder Hnewer n both.
  subst n both.
  rewrite (step_FileChosen_accepts s (Some [older]) older w eq_refl Holder).
  rewrite (step_FileChosen_accepts s (Some [newer]) newer _ eq_refl Hnewer).
  split.
  - unfold step. cbn [pending suspend observe setInput].
    rewrite nth_error_very_last. unfold unpark.
    cbn [pending suspend observe setInput app inputs trace perform run].
    rewrite removeNth_very_last.
    destruct s; simpl; rewrite nth_error_last; reflexivity.
  - unfold step. cbn [pending suspend observe setInput].
    rewrite nth_error_last_but_one. unfold unpark.
    cbn [pending suspend observe setInput app inputs trace perform run].
    rewrite removeNth_last_but_one.
    destruct s; simpl; rewrite nth_error_last; reflexivity.
Qed.

(** ** The result area *)

(** X15. In every state of the six cells the result area shows at least
    one of its four blocks; the placeholder shows only when no other
    block does, and the result never shows beside the loading block.
    The workflow state read off the cells names the block shown:
    Loading the loading block, Idle the placeholder, Failed the error
    block without the loading one, Succeeded the result without the
    error block. *)
Theorem result_area_blocks :
  forall st : AppState,
    showsLoading st || showsError st || showsResult st || showsPlaceholder st
      = true
    /\ (showsPlaceholder st = true ->
        showsLoading st = false /\ showsError st = false
        /\ showsResult st = false)
    /\ (showsLoading st = true -> showsResult st = false)
    /\ (workflowState st = Loading <-> showsLoading st = true)
    /\ (workflowState st = Idle <-> showsPlaceholder st = true)
    /\ ((exists message, workflowState st = Failed message) <->
        showsLoading st = false /\ showsError st = true)
    /\ ((exists uri, workflowState st = Succeeded uri) <->
        showsResult st = true /\ showsError st = false).
Proof.
  intros [base logo instruction result flag err].
  unfold showsLoading, showsError, showsResult, showsPlaceholder,
    workflowState, shown, truthyOpt.
  cbn [isLoading error generatedImage].
  destruct flag; destruct err as [message |];
    try destruct (truthy message); destruct result as [uri |];
    try destruct (truthy uri); cbn;
    repeat split; intros;
    repeat match goal with
           | H : exists _, _ |- _ => destruct H
           | H : _ /\ _ |- _ => destruct H
           end;
    try discriminate; try reflexivity; try (eexists; reflexivity).
Qed.

(** X16. The missing-input branch of [handleGenerate] sets the error
    and nothing else: called on a page that shows a result, with the
    instruction erased, it leaves that result in place, and the error
    block and the stale result show together. *)
Theorem missing_input_keeps_stale_result :
  forall (w : World) (uri : string),
    isLoading (app w) = false ->
    generatedImage (app w) = Some uri ->
    uri <> "" ->
    baseImage (app w) = None \/ logoImage (app w) = None \/ prompt (app w) = "" ->
    let after := app (run FromGenerate (handleGenerate (app w)) w) in
    generatedImage after = Some uri
    /\ showsError after = true
    /\ showsResult after = true.
Proof.
  intros w uri Hidle Hresult Huri Hmissing after. subst after.
  rewrite (handleGenerate_missing_input _ Hmissing).
  unfold showsError, showsResult. cbn.
  rewrite Hresult, Hidle. cbn. rewrite (truthy_nonempty _ Huri). auto.
Qed.

(** ** While loading, neither an error nor a result *)

Lemma keepsResultCells_bind {A B : Type} (p : Proc A) (f : A -> Proc B) :
  keepsResultCells p ->
  (forall a, keepsResultCells (f a)) ->
  keepsResultCells (bind p f).
Proof.
  intros Hp Hf.
  induction p as [a | v | e k IH | file k IH | request k IH]; simpl in *; auto.
  destruct e; auto.
Qed.

Lemma keepsResultCells_tryCatch {A : Type} (p : Proc A) (h : JsValue -> Proc A) :
  keepsResultCells p ->
  (forall v, keepsResultCells (h v)) ->
  keepsResultCells (tryCatch p h).
Proof.
  intros Hp Hh.
  induction p as [a | v | e k IH | file k IH | request k IH]; simpl in *; auto.
  destruct e; auto.
Qed.

Lemma keepsResultCells_forOfParts (ps : list Part) (after : Proc string) :
  keepsResultCells after ->
  keepsResultCells (GeminiService.forOfParts ps after).
Proof.
  intro Hafter.
  induction ps as [| part rest IH]; simpl; [exact Hafter |].
  destruct (inlineData part); simpl; auto.
Qed.

Lemma keepsResultCells_generateEditedImage
    (params : GeminiService.GenerateImageParams) :
  keepsResultCells (GeminiService.generateEditedImage params).
Proof.
  unfold GeminiService.generateEditedImage.
  apply keepsResultCells_tryCatch.
  - apply keepsResultCells_bind.
    + simpl. intros [response | reason]; exact I.
    + intro response. apply keepsResultCells_forOfParts. exact I.
  - intro v. simpl. destruct v; exact I.
Qed.

Lemma keepsResultCells_fileToBase64 (f : File) :
  keepsResultCells (fileToBase64 f).
Proof.
  simpl. intros [result |]; exact I.
Qed.

(** Inside [try ... catch ... finally], a step that sets no result cell
    can be passed over. *)
Lemma settlesClean_guarded {A : Type} (p : Proc A) (f : A -> Proc unit)
    (h : JsValue -> Proc unit) (fin : Proc unit) :
  keepsResultCells p ->
  (forall a, settlesClean (tryFinally (tryCatch (f a) h) fin) true false false) ->
  (forall v, settlesClean (tryFinally (h v) fin) true false false) ->
  settlesClean (tryFinally (tryCatch (bind p f) h) fin) true false false.
Proof.
  intros Hp Hf Hh.
  induction p as [a | v | e k IH | file k IH | request k IH]; simpl in *.
  - apply Hf.
  - apply Hh.
  - destruct e; simpl in *; try contradiction; auto.
  - split; auto.
  - split; auto.
Qed.

Lemma handleGenerate_settlesClean (st : AppState) (err res : bool) :
  settlesClean (handleGenerate st) false err res.
Proof.
  unfold handleGenerate.
  destruct (baseImage st) as [base |]; [| reflexivity].
  destruct (logoImage st) as [logo |]; [| reflexivity].
  destruct (truthy (prompt st)); [| reflexivity].
  cbn [bind perform settlesClean isSome isNull negb].
  apply settlesClean_guarded; [apply keepsResultCells_fileToBase64 | |].
  - intro baseImageBase64.
    apply settlesClean_guarded; [apply keepsResultCells_fileToBase64 | |].
    + intro logoImageBase64.
      apply settlesClean_guarded;
        [apply keepsResultCells_generateEditedImage | |].
      * intro result. reflexivity.
      * intro v. reflexivity.
    + intro v. reflexivity.
  - intro v. reflexivity.
Qed.

Lemma isSome_false {A : Type} (x : option A) : isSome x = false -> x = None.
Proof. destruct x; [discriminate | reflexivity]. Qed.

Lemma run_settlesClean (p : Proc unit) :
  forall (flag err res : bool) (w : World),
    settlesClean p flag err res ->
    isLoading (app w) = flag ->
    isSome (error (app w)) = err ->
    isSome (generatedImage (app w)) = res ->
    Forall parkedClean (pending w) ->
    Forall parkedClean (pending (run FromGenerate p w))
    /\ (isLoading (app (run FromGenerate p w)) = true ->
        error (app (run FromGenerate p w)) = None
        /\ generatedImage (app (run FromGenerate p w)) = None).
Proof.
  induction p as [a | v | e k IH | file k IH | request k IH];
    intros flag err res w Hsettles Hflag Herr Hres Hparked; simpl in *.
  - split; [exact Hparked |]. intro Hup. congruence.
  - split; [exact Hparked |]. intro Hup. congruence.
  - destruct e; simpl in Hsettles;
      (eapply IH; [exact Hsettles | simpl; auto ..]).
  - destruct Hsettles as ((-> & -> & ->) & Hk). split.
    + apply Forall_app. split; [exact Hparked |].
      constructor; [exact Hk | constructor].
    + intros _. split; apply isSome_false; assumption.
  - destruct Hsettles as ((-> & -> & ->) & Hk). split.
    + apply Forall_app. split; [exact Hparked |].
      constructor; [exact Hk | constructor].
    + intros _. split; apply isSome_false; assumption.
Qed.

Lemma tidy_same_cells (w w' : World) :
  tidy w ->
  pending w' = pending w ->
  isLoading (app w') = isLoading (app w) ->
  error (app w') = error (app w) ->
  generatedImage (app w') = generatedImage (app w) ->
  tidy w'.
Proof.
  intros (Hparked & Hclean) Hp Hl He Hg. unfold tidy.
  rewrite Hp, Hl, He, Hg. auto.
Qed.

Lemma tidy_step (e : Event) (w : World) :
  invariant w -> tidy w -> tidy (step e w).
Proof.
  intros Hinv Htidy.
  destruct e as [s files | s files | s | s | s | value | | i ended | i ended].
  - destruct (intake_step (FileChosen s files) s files w (or_introl eq_refl))
      as (Happ & [Hsame | (f & k & Hmore & Hok)]).
    + apply (tidy_same_cells w); try rewrite Happ; auto.
    + destruct Htidy as (Hparked & Hclean). split.
      * rewrite Hmore. apply Forall_app. split; [exact Hparked |].
        constructor; [exact Hok | constructor].
      * rewrite Happ. exact Hclean.
  - destruct (intake_step (FilesDropped s files) s files w (or_intror eq_refl))
      as (Happ & [Hsame | (f & k & Hmore & Hok)]).
    + apply (tidy_same_cells w); try rewrite Happ; auto.
    + destruct Htidy as (Hparked & Hclean). split.
      * rewrite Hmore. apply Forall_app. split; [exact Hparked |].
        constructor; [exact Hok | constructor].
      * rewrite Happ. exact Hclean.
  - apply (tidy_same_cells w); auto.
  - apply (tidy_same_cells w); auto.
  - destruct (remove_step s w) as [-> | (Hpending & Happ)]; [exact Htidy |].
    apply (tidy_same_cells w); try rewrite Happ; auto;
      destruct s; reflexivity.
  - apply (tidy_same_cells w); auto.
  - unfold step.
    destruct (generateDisabled (app w)) eqn:Hdisabled; [exact Htidy |].
    unfold generateDisabled in Hdisabled.
    destruct (isLoading (app w)) eqn:Hflag; [discriminate Hdisabled |].
    destruct Htidy as (Hparked & _).
    exact (run_settlesClean _ false _ _ w
             (handleGenerate_settlesClean (app w) _ _)
             Hflag eq_refl eq_refl Hparked).
  - unfold step.
    destruct (nth_error (pending w) i) as [[origin [f k | request k]] |] eqn:Hnth;
      try exact Htidy.
    destruct Htidy as (Hparked & Hclean).
    pose proof (nth_error_Forall _ _ _ _ Hparked Hnth) as Hok.
    pose proof (removeNth_Forall parkedClean i _ Hparked) as Hrest.
    destruct origin as [uid |].
    + destruct Hok as (s & -> & Hk). rewrite Hk. cbn [perform run].
      apply (tidy_same_cells (unpark i w)).
      * split; [exact Hrest | exact Hclean].
      * apply slotSetter_frame.
      * apply slotSetter_frame.
      * apply slotSetter_frame.
      * apply slotSetter_frame.
    + destruct Hinv as (_ & Hcount).
      pose proof (removeNth_count isSubmission _ _ _ Hnth) as Hremoved.
      cbn [isSubmission fst] in Hremoved. unfold submissionsInFlight in Hcount.
      assert (Hflag : isLoading (app w) = true).
      { destruct (isLoading (app w)); [reflexivity | lia]. }
      destruct (Hclean Hflag) as (Herr & Hres).
      apply (run_settlesClean (k ended) true false false (unpark i w) (Hok ended));
        cbn [unpark app]; try rewrite Herr; try rewrite Hres; auto.
  - unfold step.
    destruct (nth_error (pending w) i) as [[origin [f k | request k]] |] eqn:Hnth;
      try exact Htidy.
    destruct Htidy as (Hparked & Hclean).
    pose proof (nth_error_Forall _ _ _ _ Hparked Hnth) as Hok.
    pose proof (removeNth_Forall parkedClean i _ Hparked) as Hrest.
    destruct origin as [uid |]; [contradiction Hok |].
    destruct Hinv as (_ & Hcount).
    pose proof (removeNth_count isSubmission _ _ _ Hnth) as Hremoved.
    cbn [isSubmission fst] in Hremoved. unfold submissionsInFlight in Hcount.
    assert (Hflag : isLoading (app w) = true).
    { destruct (isLoading (app w)); [reflexivity | lia]. }
    destruct (Hclean Hflag) as (Herr & Hres).
    apply (run_settlesClean (k ended) true false false (unpark i w) (Hok ended));
      cbn [unpark app]; try rewrite Herr; try rewrite Hres; auto.
Qed.

Lemma reachable_tidy (w : World) : reachable w -> tidy w.
Proof.
  induction 1 as [| e w Hreach IH].
  - split; [constructor | discriminate].
  - apply tidy_step; [apply reachable_invariant; exact Hreach | exact IH].
Qed.

(** X14. In every state the page can reach, while the loading flag is
    up [error] and [generatedImage] are both null: a new submission
    clears them before its first suspension and sets one of them only
    in the run that lowers the flag.  So while loading the loading
    block is the only block of the result area that shows. *)
Theorem loading_shows_nothing_stale :
  forall w : World,
    reachable w ->
    isLoading (app w) = true ->
    error (app w) = None
    /\ generatedImage (app w) = None
    /\ showsError (app w) = false
    /\ showsResult (app w) = false
    /\ showsPlaceholder (app w) = false.
Proof.
  intros w Hreach Hflag.
  destruct (reachable_tidy w Hreach) as (_ & Hclean).
  destruct (Hclean Hflag) as (Herr & Hres).
  unfold showsError, showsResult, showsPlaceholder.
  rewrite Herr, Hres, Hflag. repeat split.
Qed.

(** ** A submission works on what the form held at the click *)

Lemma editing_step (e : Event) (w : World) :
  editing e = true ->
  pending (step e w) = pending w
  /\ requestsOf (trace (step e w)) = requestsOf (trace w)
  /\ readsOf (trace (step e w)) = readsOf (trace w).
Proof.
  destruct e as [s files | s files | s | s | s | value | | i ended | i ended];
    try discriminate; intros _.
  - simpl. rewrite !requestsOf_app, !readsOf_app. simpl.
    rewrite !app_nil_r. auto.
  - simpl. rewrite !requestsOf_app, !readsOf_app. simpl.
    rewrite !app_nil_r. auto.
  - unfold step. cbv zeta.
    destruct (imageFile (uploader s (app w))); [| auto].
    unfold handleRemove. rewrite onImageUpload_uploader.
    destruct s; simpl; rewrite !requestsOf_app, !readsOf_app; simpl;
      rewrite !app_nil_r; auto.
  - simpl. auto.
Qed.

Lemma editing_steps (es : list Event) :
  forall w : World,
    forallb editing es = true ->
    pending (steps es w) = pending w
    /\ requestsOf (trace (steps es w)) = requestsOf (trace w)
    /\ readsOf (trace (steps es w)) = readsOf (trace w).
Proof.
  induction es as [| e es IH]; intros w Hes; [simpl; auto |].
  simpl in Hes. apply andb_true_iff in Hes. destruct Hes as (He & Hes).
  rewrite steps_cons.
  destruct (IH (step e w) Hes) as (Hp & Hr & Hd).
  destruct (editing_step e w He) as (Hp' & Hr' & Hd').
  rewrite Hp, Hr, Hd. auto.
Qed.

(** The three suspensions of a submission, one after the other. *)
Lemma handleGenerate_unfolds (w : World) (base logo : ImageFile) :
  baseImage (app w) = Some base ->
  logoImage (app w) = Some logo ->
  prompt (app w) <> "" ->
  exists k1 : ReadOutcome -> Proc unit,
    run FromGenerate (handleGenerate (app w)) w =
      suspend (FromGenerate, AwaitRead (file base) k1)
        (observe (SawRead (file base))
           (apply (SetGeneratedImage None)
              (apply (SetError None) (apply (SetIsLoading true) w))))
    /\ forall (baseURL : string),
         exists k2 : ReadOutcome -> Proc unit,
           (forall w1 : World,
               run FromGenerate (k1 (Loaded baseURL)) w1 =
                 suspend (FromGenerate, AwaitRead (file logo) k2)
                   (observe (SawRead (file logo)) w1))
           /\ forall (logoURL : string),
                exists k3 : RemoteOutcome -> Proc unit,
                  forall w2 : World,
                    run FromGenerate (k2 (Loaded logoURL)) w2 =
                      suspend
                        (FromGenerate,
                         AwaitRemote
                           (editRequest
                              (paramsAfterReads (app w) base logo baseURL logoURL))
                           k3)
                        (observe
                           (SawRequest
                              (editRequest
                                 (paramsAfterReads (app w) base logo
                                    baseURL logoURL)))
                           w2).
Proof.
  intros Hbase Hlogo Hprompt. unfold handleGenerate.
  rewrite Hbase, Hlogo, (truthy_nonempty _ Hprompt).
  eexists. split; [reflexivity |].
  intro baseURL. eexists. split; [intro w1; reflexivity |].
  intro logoURL. eexists. intro w2. reflexivity.
Qed.

(** X10. A submission works on the images and the instruction the form
    held when the button was clicked.  Whatever is typed into the
    instruction and whichever images are removed while it runs, it
    reads the two files selected at the click and sends the request
    built from them and from the instruction of that moment. *)
Theorem submission_uses_form_as_clicked :
  forall (w : World) (base logo : ImageFile) (meanwhile later : list Event)
         (baseURL logoURL : string),
    isLoading (app w) = false ->
    baseImage (app w) = Some base ->
    logoImage (app w) = Some logo ->
    prompt (app w) <> "" ->
    forallb editing meanwhile = true ->
    forallb editing later = true ->
    let n := length (pending w) in
    let final :=
      step (ReadEnded n (Loaded logoURL))
        (steps later
           (step (ReadEnded n (Loaded baseURL))
              (steps meanwhile (step GenerateClicked w)))) in
    readsOf (trace final) = readsOf (trace w) ++ [file base; file logo]
    /\ requestsOf (trace final) =
       requestsOf (trace w)
         ++ [editRequest (paramsAfterReads (app w) base logo baseURL logoURL)].
Proof.
  intros w base logo meanwhile later baseURL logoURL
         Hidle Hbase Hlogo Hprompt Hmeanwhile Hlater n final.
  destruct (handleGenerate_unfolds w base logo Hbase Hlogo Hprompt)
    as (k1 & Hclick & Hk1).
  destruct (Hk1 baseURL) as (k2 & Hfirst & Hk2).
  destruct (Hk2 logoURL) as (k3 & Hsecond).
  assert (Hstep0 : step GenerateClicked w =
                   suspend (FromGenerate, AwaitRead (file base) k1)
                     (observe (SawRead (file base))
                        (apply (SetGeneratedImage None)
                           (apply (SetError None)
                              (apply (SetIsLoading true) w))))).
  { unfold step, generateDisabled. rewrite Hidle, Hbase, Hlogo. exact Hclick. }
  remember (steps meanwhile (step GenerateClicked w)) as wa eqn:Hwa.
  destruct (editing_steps meanwhile (step GenerateClicked w) Hmeanwhile)
    as (Hpa & Hra & Hda).
  rewrite <- Hwa in Hpa, Hra, Hda. rewrite Hstep0 in Hpa, Hra, Hda.
  cbn [pending suspend observe apply withApp trace] in Hpa, Hra, Hda.
  assert (Hstep1 : step (ReadEnded n (Loaded baseURL)) wa =
                   suspend (FromGenerate, AwaitRead (file logo) k2)
                     (observe (SawRead (file logo)) (unpark n wa))).
  { unfold step. subst n. rewrite Hpa, nth_error_last. apply Hfirst. }
  remember (steps later (step (ReadEnded n (Loaded baseURL)) wa)) as wb eqn:Hwb.
  destruct (editing_steps later (step (ReadEnded n (Loaded baseURL)) wa) Hlater)
    as (Hpb & Hrb & Hdb).
  rewrite <- Hwb in Hpb, Hrb, Hdb. rewrite Hstep1 in Hpb, Hrb, Hdb.
  cbn [pending suspend observe unpark trace] in Hpb, Hrb, Hdb.
  rewrite Hpa in Hpb. subst n. rewrite removeNth_last in Hpb.
  subst final.
  assert (Hstep2 : step (ReadEnded (length (pending w)) (Loaded logoURL)) wb =
                   suspend
                     (FromGenerate,
                      AwaitRemote
                        (editRequest
                           (paramsAfterReads (app w) base logo baseURL logoURL))
                        k3)
                     (observe
                        (SawRequest
                           (editRequest
                              (paramsAfterReads (app w) base logo
                                 baseURL logoURL)))
                        (unpark (length (pending w)) wb))).
  { unfold step. rewrite Hpb, nth_error_last. apply Hsecond. }
  rewrite Hstep2. cbn [trace suspend observe unpark].
  rewrite readsOf_app, requestsOf_app, Hdb, Hrb.
  rewrite !readsOf_app, !requestsOf_app, Hda, Hra.
  rewrite !readsOf_app, !requestsOf_app. simpl.
  rewrite !app_nil_r, <- !app_assoc. split; reflexivity.
Qed.

(** ** The further properties at sample inputs *)

Lemma generateEditedImage_reads_first_candidate_only_witness :
  fst (exec (Examples.answering (RemoteOk Samples.pictureInSecondCandidate))
            (GeminiService.generateEditedImage Examples.params)
            Examples.ready) =
  Rejected (JsStr "No image was generated in the response.").
Proof.
  apply (generateEditedImage_reads_first_candidate_only
           (Examples.answering (RemoteOk Samples.pictureInSecondCandidate))
           Examples.params Examples.ready Samples.pictureInSecondCandidate
           eq_refl).
  right. right. do 2 eexists. split; [reflexivity |].
  right. right. eexists. split; [reflexivity | repeat constructor].
Defined.

Lemma submission_succeeds_witness :
  workflowState
    (app (snd (exec (Examples.answering (RemoteOk Examples.twoPictures))
                    (handleGenerate (app Examples.ready)) Examples.ready))) =
  Succeeded "data:image/png;base64,Rk9P".
Proof.
  apply (submission_succeeds
           (Examples.answering (RemoteOk Examples.twoPictures))
           Examples.ready Examples.personImage Examples.logoImage
           "data:image/png;base64,AAAA" "data:image/jpeg;base64,AAAA"
           Examples.twoPictures
           (mkCandidate
              (Some (mkContent
                       (Some [Examples.caption; Examples.firstPicture;
                              Examples.secondPicture]))))
           []
           (mkContent
              (Some [Examples.caption; Examples.firstPicture;
                     Examples.secondPicture]))
           [Examples.caption] [Examples.secondPicture] Examples.firstPicture
           (mkBlob (Some "Rk9P") (Some "image/png")));
    try reflexivity.
  - discriminate.
  - repeat constructor.
Defined.

Lemma submission_with_unreadable_file_witness :
  workflowState
    (app (snd (exec Samples.unreadable
                    (handleGenerate (app Examples.ready)) Examples.ready))) =
    Failed "[object ProgressEvent]"
  /\ readsOf
       (trace (snd (exec Samples.logoUnreadable
                         (handleGenerate (app Examples.ready)) Examples.ready))) =
     [Examples.person; Examples.logo].
Proof.
  split.
  - apply (proj1 (submission_with_unreadable_file Samples.unreadable
                    Examples.ready Examples.personImage Examples.logoImage
                    eq_refl eq_refl ltac:(discriminate))
                 eq_refl).
  - apply (proj2 (submission_with_unreadable_file Samples.logoUnreadable
                    Examples.ready Examples.personImage Examples.logoImage
                    eq_refl eq_refl ltac:(discriminate))
                 "data:image/png;base64,AAAA" eq_refl eq_refl).
Defined.

Lemma submission_always_settles_witness :
  isLoading
    (app (snd (exec Samples.logoUnreadable
                    (handleGenerate (app Examples.ready)) Examples.ready))) =
  false.
Proof.
  apply (submission_always_settles Samples.logoUnreadable Examples.ready
           Examples.personImage Examples.logoImage eq_refl eq_refl).
  discriminate.
Defined.

Lemma submission_sends_what_it_read_witness :
  readsOf
    (trace (snd (exec (Examples.answering (RemoteOk Examples.noPicture))
                      (handleGenerate (app Examples.ready)) Examples.ready))) =
  [Examples.person; Examples.logo].
Proof.
  apply (submission_sends_what_it_read
           (Examples.answering (RemoteOk Examples.noPicture))
           Examples.ready Examples.personImage Examples.logoImage
           "data:image/png;base64,AAAA" "data:image/jpeg;base64,AAAA"
           eq_refl eq_refl ltac:(discriminate) eq_refl eq_refl).
Defined.

Lemma submission_remote_failure_witness :
  error
    (app (snd (exec (Examples.answering (RemoteFailed (JsStr "quota exceeded")))
                    (handleGenerate (app Examples.ready)) Examples.ready))) =
  Some "An unknown error occurred while generating the image.".
Proof.
  apply (submission_remote_failure
           (Examples.answering (RemoteFailed (JsStr "quota exceeded")))
           Examples.ready Examples.personImage Examples.logoImage
           "data:image/png;base64,AAAA" "data:image/jpeg;base64,AAAA"
           (JsStr "quota exceeded")
           eq_refl eq_refl ltac:(discriminate) eq_refl eq_refl eq_refl).
Defined.

Lemma fileToBase64_decodes_data_uri_witness :
  fst (exec (Examples.answering (RemoteOk Examples.noPicture))
            (fileToBase64 Examples.person) Examples.ready) =
  Resolved (GeminiService.mkEncodedImage (Some "AAAA") "image/png").
Proof.
  apply (proj1 (fileToBase64_decodes_data_uri
                  (Examples.answering (RemoteOk Examples.noPicture))
                  Examples.person Examples.ready)
               "image/png" "AAAA" eq_refl eq_refl eq_refl).
Defined.

Lemma picker_accepts_any_type_witness :
  selected BaseSlot
    (app (step (ReadEnded 0 ReadFailed)
            (step (FileChosen BaseSlot (Some [Samples.notes])) initial))) =
  Some (mkImageFile Samples.notes None).
Proof.
  apply (picker_accepts_any_type BaseSlot Samples.notes [] initial ReadFailed).
  simpl. lia.
Defined.

Lemma intake_considers_first_file_only_witness :
  trace (step (FilesDropped LogoSlot (Some [])) initial) =
  [SawPreventDefault; SawStopPropagation].
Proof.
  apply (proj1 intake_considers_first_file_only LogoSlot (Some []) initial
           (or_intror eq_refl)).
Defined.

Lemma select_then_remove_restores_witness :
  app (step (RemoveClicked BaseSlot)
         (step (ReadEnded 0 (Loaded "data:image/png;base64,UEVSU09O"))
            (step (FileChosen BaseSlot (Some [Examples.person])) initial))) =
  app initial.
Proof.
  apply (select_then_remove_restores BaseSlot Examples.person [] initial
           (Loaded "data:image/png;base64,UEVSU09O"));
    [simpl; lia | reflexivity].
Defined.

Lemma selection_follows_last_read_to_end_witness :
  selected BaseSlot
    (app (step (ReadEnded 0 (Loaded "data:image/png;base64,UEVSU09O"))
            (step (ReadEnded 1 (Loaded "data:image/gif;base64,R0lG"))
               (step (FileChosen BaseSlot (Some [Examples.animation]))
                  (step (FileChosen BaseSlot (Some [Examples.person]))
                     initial))))) =
  Some (mkImageFile Examples.person (Some "data:image/png;base64,UEVSU09O")).
Proof.
  apply (selection_follows_last_read_to_end BaseSlot Examples.person
           Examples.animation initial
           (Loaded "data:image/png;base64,UEVSU09O")
           (Loaded "data:image/gif;base64,R0lG"));
    simpl; lia.
Defined.

Lemma result_area_blocks_witness :
  showsLoading (app Examples.ready) = false
  /\ showsError (app Examples.ready) = false
  /\ showsResult (app Examples.ready) = false.
Proof.
  apply (proj1 (proj2 (result_area_blocks (app Examples.ready)))).
  reflexivity.
Defined.

Lemma missing_input_keeps_stale_result_witness :
  showsError
    (app (run FromGenerate (handleGenerate (app Samples.resultShown))
              Samples.resultShown)) = true
  /\ showsResult
       (app (run FromGenerate (handleGenerate (app Samples.resultShown))
                 Samples.resultShown)) = true.
Proof.
  apply (missing_input_keeps_stale_result Samples.resultShown
           "data:image/png;base64,Rk9P" eq_refl eq_refl).
  - discriminate.
  - right. right. reflexivity.
Defined.

Lemma loading_shows_nothing_stale_witness :
  error (app Examples.submitted) = None
  /\ generatedImage (app Examples.submitted) = None.
Proof.
  pose proof (loading_shows_nothing_stale Examples.submitted
                (reachable_steps _ _ reachable_initial) eq_refl)
    as (Herr & Hres & _).
  split; assumption.
Defined.

Lemma submission_uses_form_as_clicked_witness :
  requestsOf
    (trace
       (step (ReadEnded 0 (Loaded "data:image/jpeg;base64,TE9HTw=="))
          (steps [RemoveClicked LogoSlot]
             (step (ReadEnded 0 (Loaded "data:image/png;base64,UEVSU09O"))
                (steps [PromptTyped "make it red"; RemoveClicked BaseSlot]
                   (step GenerateClicked Examples.ready)))))) =
  [editRequest Examples.params].
Proof.
  apply (submission_uses_form_as_clicked Examples.ready
           Examples.personImage Examples.logoImage
           [PromptTyped "make it red"; RemoveClicked BaseSlot]
           [RemoveClicked LogoSlot]
           "data:image/png;base64,UEVSU09O" "data:image/jpeg;base64,TE9HTw=="
           eq_refl eq_refl eq_refl ltac:(discriminate) eq_refl eq_refl).
Defined.
